(** * DAXMvoxel: frame conversion, strain-free vectors, pairing and the
      deformation-gradient solvers of [src/voxel.py]

    The arrays of the program are numpy [float64] arrays.  They are modelled
    over the real numbers of the Standard Library: a 3-vector is a triple, a
    3x3 array is a triple of rows, and a 3xN array is the list of its N
    columns (the class docstring: "(a,b) -> a and b column stacked").
    Exceptions are values of [exn]; a method that mutates [self] is a
    computation over the voxel that returns a result or an exception together
    with the voxel it leaves behind.

    What the reals do not have is kept out of the statements or made a
    parameter: every array is a [float64] array (what [read] produces; an
    integer [plane] would make [np.zeros_like] of line 256 truncate), a
    quotient by a zero norm is not a NaN here, so the statements about
    cosines exclude zero vectors, and what the LU factorization does with a
    singular matrix is the parameter [lapack] of [inv]. *)

From Stdlib Require Import Reals Lra ZArith String List Bool Arith Lia.
Import ListNotations.
Open Scope R_scope.

(* ================================================================== *)
(** ** numpy arrays and the operations the class uses *)

Module Np.

Definition vec2 : Type := (R * R)%type.
Definition vec3 : Type := (R * R * R)%type.
(** A 3x3 array, row by row. *)
Definition mat3 : Type := (vec3 * vec3 * vec3)%type.
(** A 3xN array, column by column. *)
Definition cols3 : Type := list vec3.
(** A 2xN array, column by column. *)
Definition cols2 : Type := list vec2.

Definition zeros3 : vec3 := (0, 0, 0).
Definition zeros2 : vec2 := (0, 0).

(** [np.eye(3)] *)
Definition eye3 : mat3 := ((1, 0, 0), (0, 1, 0), (0, 0, 1)).

Definition dot3 (u v : vec3) : R :=
  let '(u0, u1, u2) := u in
  let '(v0, v1, v2) := v in
  u0 * v0 + u1 * v1 + u2 * v2.

(** [np.dot(m, v)] for a 3x3 [m] and a 3-vector [v]. *)
Definition matvec (m : mat3) (v : vec3) : vec3 :=
  let '(r0, r1, r2) := m in (dot3 r0 v, dot3 r1 v, dot3 r2 v).

(** [m.T] *)
Definition transpose (m : mat3) : mat3 :=
  let '((a, b, c), (d, e, f), (g, h, i)) := m in
  ((a, d, g), (b, e, h), (c, f, i)).

(** [np.dot(m, n)] for two 3x3 arrays. *)
Definition matmul (m n : mat3) : mat3 :=
  let '(r0, r1, r2) := m in
  let '(c0, c1, c2) := transpose n in
  ((dot3 r0 c0, dot3 r0 c1, dot3 r0 c2),
   (dot3 r1 c0, dot3 r1 c1, dot3 r1 c2),
   (dot3 r2 c0, dot3 r2 c1, dot3 r2 c2)).

(** [np.dot(m, a)] for a 3x3 [m] and a 3xN [a]: column by column. *)
Definition matcols (m : mat3) (a : cols3) : cols3 := map (matvec m) a.

Definition vadd (u v : vec3) : vec3 :=
  let '(u0, u1, u2) := u in
  let '(v0, v1, v2) := v in (u0 + v0, u1 + v1, u2 + v2).

Definition vsub (u v : vec3) : vec3 :=
  let '(u0, u1, u2) := u in
  let '(v0, v1, v2) := v in (u0 - v0, u1 - v1, u2 - v2).

Definition vscale (k : R) (v : vec3) : vec3 :=
  let '(v0, v1, v2) := v in (k * v0, k * v1, k * v2).

Definition madd (m n : mat3) : mat3 :=
  let '(m0, m1, m2) := m in
  let '(n0, n1, n2) := n in (vadd m0 n0, vadd m1 n1, vadd m2 n2).

Definition mzero : mat3 := (zeros3, zeros3, zeros3).

(** The 3x3 array u . v^t. *)
Definition outer (u v : vec3) : mat3 :=
  let '(u0, u1, u2) := u in (vscale u0 v, vscale u1 v, vscale u2 v).

(** [np.linalg.norm(v)] of one column. *)
Definition norm (v : vec3) : R := sqrt (dot3 v v).

(** [v / k] *)
Definition vdiv (v : vec3) (k : R) : vec3 :=
  let '(v0, v1, v2) := v in (v0 / k, v1 / k, v2 / k).

Definition det (m : mat3) : R :=
  let '((a, b, c), (d, e, f), (g, h, i)) := m in
  a * (e * i - f * h) - b * (d * i - f * g) + c * (d * h - e * g).

Definition adjugate (m : mat3) : mat3 :=
  let '((a, b, c), (d, e, f), (g, h, i)) := m in
  ((e * i - f * h, c * h - b * i, b * f - c * e),
   (f * g - d * i, a * i - c * g, c * d - a * f),
   (d * h - e * g, b * g - a * h, a * e - b * d)).

Definition mscale (k : R) (m : mat3) : mat3 :=
  let '(r0, r1, r2) := m in (vscale k r0, vscale k r1, vscale k r2).

(** Comparisons of floats as booleans. *)
Definition Rleb (a b : R) : bool := if Rle_dec a b then true else false.
Definition Rltb (a b : R) : bool := if Rlt_dec a b then true else false.
Definition Reqb (a b : R) : bool := if Req_dec_T a b then true else false.

(** [np.where(mask)]: the indices at which the mask holds, increasing. *)
Fixpoint where_from (i : nat) (mask : list bool) : list nat :=
  match mask with
  | [] => []
  | b :: rest => if b then i :: where_from (S i) rest else where_from (S i) rest
  end.
Definition where_ (mask : list bool) : list nat := where_from 0 mask.

(** [np.argmin] of a one-dimensional array: the first index of the least
    entry; numpy raises on an empty array, here [None]. *)
Fixpoint argmin_from (best_i : nat) (best : R) (i : nat) (l : list R) : nat :=
  match l with
  | [] => best_i
  | x :: rest =>
      if Rltb x best then argmin_from i x (S i) rest
      else argmin_from best_i best (S i) rest
  end.
Definition argmin (l : list R) : option nat :=
  match l with
  | [] => None
  | x :: rest => Some (argmin_from 0 x 1 rest)
  end.

End Np.
Import Np.

(* ================================================================== *)
(** ** Exceptions, dictionaries, the voxel and its computations *)

Inductive exn : Type :=
| PyException                (* a bare [raise Exception] *)
| NameError (name : string)  (* a free name bound in no scope *)
| KeyError (key : string)    (* subscript of a dict by a missing key *)
| IndexError                 (* array index out of bounds *)
| ValueError                 (* shapes not aligned, argmin of nothing *)
| LinAlgError                (* numpy.linalg: singular matrix *)
| OtherError (tag : nat).    (* a fault raised inside a library call *)

Definition result (A : Type) : Type := (exn + A)%type.
Definition Ok {A} (a : A) : result A := inr a.
Definition Raise {A} (e : exn) : result A := inl e.

Definition rbind {A B} (r : result A) (k : A -> result B) : result B :=
  match r with
  | inl e => inl e
  | inr a => k a
  end.

(** A Python dict with string keys, in insertion order. *)
Definition dict (V : Type) : Type := list (string * V).

Fixpoint dict_get {V} (d : dict V) (k : string) : option V :=
  match d with
  | [] => None
  | (k', v) :: rest => if String.eqb k k' then Some v else dict_get rest k
  end.

(** [k in d] *)
Definition dict_mem {V} (d : dict V) (k : string) : bool :=
  match dict_get d k with Some _ => true | None => false end.

(** The attributes [__init__] sets, lines 82-91. *)
Record DAXMvoxel : Type := mkVoxel {
  name : option string;
  ref_frame : string;
  coords : vec3;
  pattern_image : option string;
  scatter_vec : cols3;
  plane : cols3;
  recip_base : mat3;
  peak : cols2;
  depth : R;
  lattice_constant : list R
}.

(** A method that may assign attributes of [self] and may raise: the voxel
    left behind is returned in both cases. *)
Definition M (A : Type) : Type := DAXMvoxel -> result A * DAXMvoxel.

Definition ret {A} (a : A) : M A := fun self => (Ok a, self).
Definition raise {A} (e : exn) : M A := fun self => (Raise e, self).
Definition bind {A B} (m : M A) (k : A -> M B) : M B :=
  fun self =>
    match m self with
    | (inl e, self') => (inl e, self')
    | (inr a, self') => k a self'
    end.
Definition get_self : M DAXMvoxel := fun self => (Ok self, self).
Definition lift {A} (r : result A) : M A := fun self => (r, self).

Declare Scope voxel_scope.
Delimit Scope voxel_scope with voxel.
Notation "x <- m ;; k" := (bind m (fun x => k))
  (at level 61, m at next level, right associativity) : voxel_scope.
Notation "m ;;; k" := (bind m (fun _ => k))
  (at level 61, right associativity) : voxel_scope.

Definition set_coords (c : vec3) : M unit :=
  fun self => (Ok tt,
    mkVoxel (name self) (ref_frame self) c (pattern_image self)
            (scatter_vec self) (plane self) (recip_base self) (peak self)
            (depth self) (lattice_constant self)).

Definition set_scatter_vec (q : cols3) : M unit :=
  fun self => (Ok tt,
    mkVoxel (name self) (ref_frame self) (coords self) (pattern_image self)
            q (plane self) (recip_base self) (peak self)
            (depth self) (lattice_constant self)).

Definition set_recip_base (b : mat3) : M unit :=
  fun self => (Ok tt,
    mkVoxel (name self) (ref_frame self) (coords self) (pattern_image self)
            (scatter_vec self) (plane self) b (peak self)
            (depth self) (lattice_constant self)).

Definition set_peak (p : cols2) : M unit :=
  fun self => (Ok tt,
    mkVoxel (name self) (ref_frame self) (coords self) (pattern_image self)
            (scatter_vec self) (plane self) (recip_base self) p
            (depth self) (lattice_constant self)).

(* ================================================================== *)
(** ** The rotation table of the class body, lines 31-68 *)

Definition rot_x (theta : R) : mat3 :=
  ((1, 0, 0),
   (0, cos theta, - sin theta),
   (0, sin theta, cos theta)).

Definition theta_1 : R := - PI.
Definition R_XHF2TSL : mat3 := rot_x theta_1.
Definition R_TSL2XHF : mat3 := transpose R_XHF2TSL.

Definition theta_2 : R := -0.25 * PI.
Definition R_XHF2APS : mat3 := rot_x theta_2.
Definition R_APS2XHF : mat3 := transpose R_XHF2APS.

Definition theta_3 : R := -0.75 * PI.
Definition R_APS2TSL : mat3 := rot_x theta_3.
Definition R_TSL2APS : mat3 := transpose R_APS2TSL.

Definition R_TSL2TSL : mat3 := eye3.
Definition R_APS2APS : mat3 := eye3.
Definition R_XHF2XHF : mat3 := eye3.

(** The class attribute [DAXMvoxel.g_to_from]. *)
Definition g_to_from : dict (dict mat3) :=
  [ ("APS", [ ("APS", R_APS2APS); ("TSL", R_APS2TSL); ("XHF", R_APS2XHF) ]);
    ("TSL", [ ("APS", R_TSL2APS); ("TSL", R_TSL2TSL); ("XHF", R_TSL2XHF) ]);
    ("XHF", [ ("APS", R_XHF2APS); ("TSL", R_XHF2TSL); ("XHF", R_XHF2XHF) ])
  ]%string.

(** What the free name [g_to_from] denotes in the body of a method.  A class
    body is not an enclosing scope of the functions defined in it, so the
    name in lines 164-174 is looked up among the module's globals (and then
    the builtins), not among the class attributes. *)
Definition globals : Type := option (dict (dict mat3)).

(** The module binds [h5py], [np], [normalize] and [DAXMvoxel] only: the
    free name is unbound when [toFrame] runs as the file has it. *)
Definition module_globals : globals := None.

(** The scope in which the free name reaches the class attribute (what
    [self.g_to_from] would denote). *)
Definition class_scope : globals := Some g_to_from.

Definition load_g_to_from (genv : globals) : M (dict (dict mat3)) :=
  match genv with
  | None => raise (NameError "g_to_from")
  | Some g => ret g
  end.

Definition getitem {V} (d : dict V) (k : string) : M V :=
  match dict_get d k with
  | Some v => ret v
  | None => raise (KeyError k)
  end.

Open Scope voxel_scope.

(** The expression [g_to_from[target][self.ref_frame]]. *)
Definition g_target_current (genv : globals) (target : string) : M mat3 :=
  g <- load_g_to_from genv ;;
  row <- getitem g target ;;
  self <- get_self ;;
  getitem row (ref_frame self).

(** [toFrame], lines 161-174. *)
Definition toFrame (genv : globals) (target : option string) : M unit :=
  match target with
  | None => ret tt
  | Some target =>
      g <- load_g_to_from genv ;;
      if negb (dict_mem g target) then raise PyException else
      (* convert coordinates *)
      g1 <- g_target_current genv target ;;
      self <- get_self ;;
      set_coords (matvec g1 (coords self)) ;;;
      (* convert scattering vectors *)
      g2 <- g_target_current genv target ;;
      self <- get_self ;;
      set_scatter_vec (matcols g2 (scatter_vec self)) ;;;
      (* convert reciprocal base *)
      g3 <- g_target_current genv target ;;
      self <- get_self ;;
      set_recip_base (matmul g3 (recip_base self))
  end.

Close Scope voxel_scope.

Declare Scope result_scope.
Delimit Scope result_scope with result.
Notation "x <- r ;; k" := (rbind r (fun x => k))
  (at level 61, r at next level, right associativity) : result_scope.
Open Scope result_scope.

(* ================================================================== *)
(** ** Helpers on arrays that can fail *)

(** [a[:, j] = c]: numpy raises when [j] is out of bounds; the callers
    below check the bound first, so out of range nothing is written. *)
Fixpoint put_col {A} (j : nat) (c : A) (a : list A) : list A :=
  match a, j with
  | [], _ => []
  | _ :: rest, O => c :: rest
  | x :: rest, S j' => x :: put_col j' c rest
  end.

(** [a[:, idx] = vals], one column per index, in order. *)
Fixpoint put_cols {A} (idx : list nat) (vals : list A) (a : list A) : list A :=
  match idx, vals with
  | j :: idx', c :: vals' => put_cols idx' vals' (put_col j c a)
  | _, _ => a
  end.

(** [a[:, idx]]: the columns at the given indices; [IndexError] when one is
    out of bounds. *)
Fixpoint take_cols {A} (a : list A) (idx : list nat) : result (list A) :=
  match idx with
  | [] => Ok []
  | j :: idx' =>
      match nth_error a j with
      | None => Raise IndexError
      | Some c => rest <- take_cols a idx' ;; Ok (c :: rest)
      end
  end.

(** [np.dot(a, b.T)] for a 3xN [a] and a 3xM [b]: the sum of the outer
    products of the columns; the shapes are not aligned unless N = M. *)
Definition dot_T (a b : cols3) : result mat3 :=
  if Nat.eqb (length a) (length b)
  then Ok (fold_right (fun uv acc => madd (outer (fst uv) (snd uv)) acc)
                      mzero (combine a b))
  else Raise ValueError.

(** What the LU factorization inside [np.linalg.inv] makes of a singular
    matrix: [None] when a pivot comes out exactly zero and numpy raises
    [LinAlgError], [Some m] when rounding leaves tiny non-zero pivots and a
    matrix [m] of huge entries comes back without any error.  Which of the
    two happens is decided by floating-point rounding, which the reals do
    not have: the methods are studied for every such behaviour. *)
Definition lapack : Type := mat3 -> option mat3.

(** [np.linalg.inv]: the inverse of a non-singular matrix; on a singular
    one, whatever the factorization makes of it. *)
Definition inv (lu : lapack) (m : mat3) : result mat3 :=
  if Reqb (det m) 0 then
    match lu m with
    | None => Raise LinAlgError
    | Some mi => Ok mi
    end
  else Ok (mscale (/ det m) (adjugate m)).

(** [x.reshape(3, 3)] of a flat array: nine entries or [ValueError]. *)
Definition reshape33 (x : list R) : result mat3 :=
  match x with
  | [a; b; c; d; e; f; g; h; i] => Ok ((a, b, c), (d, e, f), (g, h, i))
  | _ => Raise ValueError
  end.

(** Elementwise operation of a 3xN and a 3xM array with numpy's
    broadcasting: equal column counts, or one of them a single column. *)
Definition broadcast_cols {A B C} (f : A -> B -> C)
    (a : list A) (b : list B) : result (list C) :=
  if Nat.eqb (length a) (length b)
  then Ok (map (fun ab => f (fst ab) (snd ab)) (combine a b))
  else match a, b with
       | [x], _ => Ok (map (f x) b)
       | _, [y] => Ok (map (fun x => f x y) a)
       | _, _ => Raise ValueError
       end.

(** Modelled from the spec: [normalize] of [daxmexplorer.vecmath], which is
    imported in line 6 and is not among the source files.  The spec calls its
    result the "unit-normalized form" of a column (section 4.2) and says
    "normalize all measured vectors to unit length" (section 4.3): the column
    divided by its Euclidean norm. *)
Definition normalize (v : vec3) : vec3 := vdiv v (norm v).

(* ================================================================== *)
(** ** [scatter_vec0], lines 152-159 *)

(** The mask of line 156 on one measured column. *)
Definition is_unit_q (q : vec3) : bool := Rleb (Rabs (norm q - 1)) 1e-8.

Definition scatter_vec0 (self : DAXMvoxel) (match_measured : bool)
    : result cols3 :=
  let q0 := matcols (recip_base self) (plane self) in
  if match_measured then
    let idx_unit_q := where_ (map is_unit_q (scatter_vec self)) in
    picked <- take_cols q0 idx_unit_q ;;
    Ok (put_cols idx_unit_q (map normalize picked) q0)
  else Ok q0.

(* ================================================================== *)
(** ** [deformation_gradientL2], lines 176-191 *)

Definition deformation_gradientL2 (lu : lapack) (self : DAXMvoxel)
    : result mat3 :=
  q0 <- scatter_vec0 self true ;;
  let q := scatter_vec self in
  A <- dot_T q q0 ;;
  B <- dot_T q0 q0 ;;
  Ainv <- inv lu A ;;
  Ok (matmul (transpose Ainv) (transpose B)).

(* ================================================================== *)
(** ** [pair_scattervec_plane], lines 254-271 *)

(** One turn of the loop of lines 261-267, on the arrays being filled. *)
Definition pair_step (self : DAXMvoxel) (qs : cols3)
    (acc : cols3 * cols2) (i : nat) : result (cols3 * cols2) :=
  let '(new_scatter_vec, new_peak) := acc in
  let q0 := normalize (matvec (recip_base self) (nth i (plane self) zeros3)) in
  let angular_diff := map (dot3 q0) qs in
  match argmin angular_diff with
  | None => Raise ValueError
  | Some idx =>
      match nth_error (scatter_vec self) idx with
      | None => Raise IndexError
      | Some q =>
          match nth_error (peak self) idx with
          | None => Raise IndexError
          | Some pk => Ok (put_col i q new_scatter_vec, put_col i pk new_peak)
          end
      end
  end.

Fixpoint pair_loop (self : DAXMvoxel) (qs : cols3)
    (range : list nat) (acc : cols3 * cols2) : result (cols3 * cols2) :=
  match range with
  | [] => Ok acc
  | i :: rest => acc' <- pair_step self qs acc i ;; pair_loop self qs rest acc'
  end.

Close Scope result_scope.
Open Scope voxel_scope.

Definition pair_scattervec_plane : M unit :=
  self <- get_self ;;
  let new_scatter_vec := map (fun _ => zeros3) (plane self) in
  let new_peak := repeat zeros2 (length (plane self)) in
  let qs := map normalize (scatter_vec self) in
  new <- lift (pair_loop self qs (seq 0 (length (plane self)))
                         (new_scatter_vec, new_peak)) ;;
  (* update scatter vectors *)
  set_scatter_vec (fst new) ;;;
  set_peak (snd new).

Close Scope voxel_scope.
Open Scope result_scope.

(* ================================================================== *)
(** ** [deformation_gradient_opt], lines 193-252 *)

(** [constraint], lines 202-203. *)
Definition constraint (constraint_f : list R) (e : R) : R :=
  INR (length constraint_f) * e
  - fold_right Rplus 0 (map Rabs constraint_f).

Definition sum_sq3 (v : vec3) : R := dot3 v v.

(** The mask of line 231 on one measured column. *)
Definition is_full_q (q : vec3) : bool :=
  negb (Rleb (Rabs (norm q - 1)) 1e-10).

(** [objectiveDante], lines 223-235. *)
Definition objectiveDante (f : list R) (vec0 vec : cols3) : result R :=
  d <- reshape33 f ;;
  let estimate := matcols (madd eye3 d) vec0 in
  (* angular difference *)
  angdiff <- broadcast_cols vsub
               (map (fun v => vdiv v (norm v)) vec)
               (map (fun v => vdiv v (norm v)) estimate) ;;
  let angdiff := sqrt (fold_right Rplus 0 (map sum_sq3 angdiff)) in
  (* length difference *)
  let idx_full_q := where_ (map is_full_q vec) in
  est_full <- take_cols estimate idx_full_q ;;
  vec_full <- take_cols vec idx_full_q ;;
  let lendiff :=
    map (fun ev => norm (fst ev) / norm (snd ev)) (combine est_full vec_full) in
  let lendiff :=
    sqrt (fold_right Rplus 0 (map (fun r => Rsqr (ln r)) lendiff)) in
  Ok (angdiff + lendiff).

(** What [scipy.optimize.minimize] hands back: the last parameter vector,
    the objective there and whether the method reports convergence. *)
Record OptimizeResult : Type := mkResult {
  res_x : list R;
  res_fun : R;
  res_success : bool
}.

Section Optimizer.

(** [scipy.optimize.minimize] with [method='COBYLA']: objective, start,
    tolerance, the inequality constraint and the iteration cap.  It is a
    library routine; the method is studied for every behaviour it can
    have, a returned result or a raised fault. *)
Variable minimize :
  (list R -> result R) -> list R -> R -> (list R -> R) -> Z
  -> result OptimizeResult.

Definition deformation_gradient_opt (lu : lapack) (eps : R)
    (self : DAXMvoxel)
    : result mat3 :=
  q0_opt <- scatter_vec0 self false ;;
  let q_opt := scatter_vec self in
  rst_opt <- minimize (fun f => objectiveDante f q0_opt q_opt)
                      (repeat 0 9) 1e-14
                      (fun x => constraint x eps)
                      10000000000%Z ;;
  d <- reshape33 (res_x rst_opt) ;;
  let fstar := madd eye3 d in
  fstar_inv <- inv lu fstar ;;
  Ok (transpose fstar_inv).

End Optimizer.

Close Scope result_scope.

(* ================================================================== *)
(** ** Frame tags and the concrete voxels and optimizer runs used below *)

(** The registered frame tags: the keys of the class table. *)
Definition registered (tag : string) : Prop :=
  tag = "APS"%string \/ tag = "TSL"%string \/ tag = "XHF"%string.

(** The voxels used as concrete inputs below. *)
Definition voxel_in (frame : string) (c : vec3) : DAXMvoxel :=
  mkVoxel (Some "Cloud"%string) frame c (Some "hidden"%string)
          [(1, 0, 0); (0, 2, 0)] [(1, 0, 0); (0, 1, 0)] eye3
          [(10, 20); (30, 40)] 0 [].

(** A sheared lattice: q0 = (2,0,0), (0,1,0), (0,0,1)
    and q = (2,0,0), (3,4,0), (0,0,2), no measured column of unit length. *)
Definition sheared_voxel : DAXMvoxel :=
  mkVoxel (Some "Cloud"%string) "APS" (1, 1, 1) (Some "hidden"%string)
          [(2, 0, 0); (3, 4, 0); (0, 0, 2)]
          [(2, 0, 0); (0, 1, 0); (0, 0, 1)] eye3
          [(10, 20); (30, 40); (50, 60)] 0 [].

Definition sheared_A : mat3 := ((4, 3, 0), (0, 4, 0), (0, 0, 2)).
Definition sheared_B : mat3 := ((4, 0, 0), (0, 1, 0), (0, 0, 1)).
Definition sheared_Ainv : mat3 :=
  ((1 / 4, - 3 / 16, 0), (0, 1 / 4, 0), (0, 0, 1 / 2)).

(** Two measured columns, both in the x-y plane. *)
Definition flat_voxel : DAXMvoxel :=
  mkVoxel (Some "Cloud"%string) "APS" (1, 1, 1) (Some "hidden"%string)
          [(2, 0, 0); (3, 4, 0)]
          [(2, 0, 0); (0, 1, 0)] eye3
          [(10, 20); (30, 40)] 0 [].

(** An optimizer run that hands back the given result whatever it is asked,
    and one that raises the given fault. *)
Definition minimize_returning (rst : OptimizeResult)
    : (list R -> result R) -> list R -> R -> (list R -> R) -> Z
      -> result OptimizeResult :=
  fun _ _ _ _ _ => Ok rst.

Definition minimize_raising (e : exn)
    : (list R -> result R) -> list R -> R -> (list R -> R) -> Z
      -> result OptimizeResult :=
  fun _ _ _ _ _ => Raise e.

(** A run that stopped at its starting point without converging. *)
Definition stalled : OptimizeResult := mkResult (repeat 0 9) 1 false.

(** The table entry [g_to_from[target][current]], when both keys exist. *)
Definition g_entry (target current : string) : option mat3 :=
  match dict_get g_to_from target with
  | Some row => dict_get row current
  | None => None
  end.

(** The angle of each frame about the x axis, counted from XHF; the table
    entries turn out to be the rotations by the differences of these. *)
Definition frame_angle (tag : string) : R :=
  if String.eqb tag "APS" then PI / 4
  else if String.eqb tag "TSL" then PI
  else 0.

(** What line 265 settles on for plane column [i]: measured column [idx]
    with its peak, of least cosine to the plane's direction. *)
Definition least_cosine_choice (self : DAXMvoxel) (i idx : nat)
    (q : vec3) (pk : vec2) : Prop :=
  nth_error (scatter_vec self) idx = Some q
  /\ nth_error (peak self) idx = Some pk
  /\ forall q', In q' (scatter_vec self) ->
        dot3 (normalize (matvec (recip_base self)
                                (nth i (plane self) zeros3)))
             (normalize q)
        <= dot3 (normalize (matvec (recip_base self)
                                   (nth i (plane self) zeros3)))
                (normalize q').

(** A voxel with one indexed plane and no measured vector, and one with a
    measured unit vector and no indexed plane. *)
Definition unmeasured_voxel : DAXMvoxel :=
  mkVoxel None "APS" (0, 0, 0) None [] [(1, 0, 0)] eye3 [] 0 [].

Definition unindexed_voxel : DAXMvoxel :=
  mkVoxel None "APS" (0, 0, 0) None [(1, 0, 0)] [] eye3 [(10, 20)] 0 [].

(** The voxel a frame conversion by [g] leaves behind (lines 168-174):
    coordinates, measured vectors and reciprocal basis multiplied by [g]. *)
Definition rotated (g : mat3) (self : DAXMvoxel) : DAXMvoxel :=
  mkVoxel (name self) (ref_frame self) (matvec g (coords self))
          (pattern_image self) (matcols g (scatter_vec self)) (plane self)
          (matmul g (recip_base self)) (peak self) (depth self)
          (lattice_constant self).

(** Two behaviours of the factorization on singular input: every zero
    pivot is met exactly, or rounding hides it and the given matrix comes
    back. *)
Definition exact_pivots : lapack := fun _ => None.
Definition rounded_pivots (m : mat3) : lapack := fun _ => Some m.

(** Three measured columns in one plane, (1,4,7) - 2 (2,5,8) + (3,6,9) = 0,
    against the planes (1,0,0), (0,1,0), (0,0,1): A = q . q0^t is the
    singular matrix ((1,2,3), (4,5,6), (7,8,9)), with no zero row or column
    for the factorization to stumble on. *)
Definition coplanar_voxel : DAXMvoxel :=
  mkVoxel (Some "Cloud"%string) "APS" (1, 1, 1) (Some "hidden"%string)
          [(1, 4, 7); (2, 5, 8); (3, 6, 9)]
          [(1, 0, 0); (0, 1, 0); (0, 0, 1)] eye3
          [(10, 20); (30, 40); (50, 60)] 0 [].

Definition coplanar_A : mat3 := ((1, 2, 3), (4, 5, 6), (7, 8, 9)).

(** A matrix of the size rounding leaves behind on such input. *)
Definition huge : mat3 :=
  ((3e15, -6e15, 3e15), (-6e15, 12e15, -6e15), (3e15, -6e15, 3e15)).

(* ================================================================== *)
(** * Properties *)

(** ** Frame conversion *)

Ltac run_method :=
  cbv [toFrame bind ret raise get_self lift load_g_to_from g_target_current
       getitem set_coords set_scatter_vec set_recip_base set_peak
       module_globals class_scope Ok Raise].

(** Equality of tuples, component by component. *)
Ltac split_pairs :=
  repeat match goal with |- (_, _) = (_, _) => apply f_equal2 end.

Lemma matvec_eye3 (v : vec3) : matvec eye3 v = v.
Proof.
  destruct v as [[a b] c]. cbv [matvec eye3 dot3].
  split_pairs; ring.
Qed.

Lemma matcols_eye3 (a : cols3) : matcols eye3 a = a.
Proof.
  unfold matcols. induction a as [| v a IH]; cbn [map].
  - reflexivity.
  - now rewrite matvec_eye3, IH.
Qed.

Lemma matmul_eye3 (m : mat3) : matmul eye3 m = m.
Proof.
  destruct m as [[[[a b] c] [[d e] f]] [[g h] i]].
  cbv [matmul eye3 transpose dot3]. split_pairs; ring.
Qed.

Lemma dict_mem_registered (tag : string) :
  dict_mem g_to_from tag = true <-> registered tag.
Proof.
  unfold dict_mem, registered. simpl.
  destruct (String.eqb_spec tag "APS"); [subst; simpl; tauto |].
  destruct (String.eqb_spec tag "TSL"); [subst; simpl; tauto |].
  destruct (String.eqb_spec tag "XHF"); [subst; simpl; tauto |].
  split; [discriminate | intros [H | [H | H]]; congruence].
Qed.

(** As the file has it, every call with a target stops at line 164: the
    free name is unbound, nothing has been assigned yet. *)
Lemma toFrame_module_globals (target : string) (self : DAXMvoxel) :
  toFrame module_globals (Some target) self
  = (Raise (NameError "g_to_from"), self).
Proof. reflexivity. Qed.

(** No path through [toFrame] assigns [self.ref_frame]. *)
Lemma toFrame_ref_frame (genv : globals) (target : option string)
    (self : DAXMvoxel) :
  ref_frame (snd (toFrame genv target self)) = ref_frame self.
Proof.
  destruct target as [target |]; [| reflexivity].
  destruct genv as [g |]; [| reflexivity].
  run_method.
  destruct (dict_mem g target); simpl; [| reflexivity].
  destruct (dict_get g target) as [row |]; simpl; [| reflexivity].
  destruct (dict_get row (ref_frame self)) as [m |] eqn:Hm;
    cbn [ref_frame]; rewrite ?Hm; cbn [ref_frame]; rewrite ?Hm; reflexivity.
Qed.

(** With the free name reaching the class table, a call between two
    registered frames multiplies the three arrays by the table's entry and
    assigns nothing else. *)
Lemma toFrame_class_scope (target : string) (self : DAXMvoxel) (g : mat3)
    (row : dict mat3) :
  dict_get g_to_from target = Some row ->
  dict_get row (ref_frame self) = Some g ->
  toFrame class_scope (Some target) self
  = (Ok tt,
     mkVoxel (name self) (ref_frame self) (matvec g (coords self))
             (pattern_image self) (matcols g (scatter_vec self)) (plane self)
             (matmul g (recip_base self)) (peak self) (depth self)
             (lattice_constant self)).
Proof.
  intros Hrow Hg. run_method. unfold dict_mem.
  rewrite Hrow. cbn [negb]. rewrite Hg.
  cbn [ref_frame coords scatter_vec recip_base]. rewrite Hg.
  cbn [ref_frame coords scatter_vec recip_base]. rewrite Hg.
  reflexivity.
Qed.

(** With the free name reaching the class table, converting to the current
    frame multiplies by the identity: nothing changes. *)
Lemma toFrame_self_class_scope (self : DAXMvoxel) :
  registered (ref_frame self) ->
  toFrame class_scope (Some (ref_frame self)) self = (Ok tt, self).
Proof.
  intros Hreg. destruct self as [n fr c im sv pl rb pk dp lc].
  cbn [ref_frame] in *.
  destruct Hreg as [-> | [-> | ->]];
    (erewrite toFrame_class_scope; [| reflexivity | reflexivity]);
    cbn [name ref_frame coords pattern_image scatter_vec plane recip_base
         peak depth lattice_constant];
    unfold R_APS2APS, R_TSL2TSL, R_XHF2XHF;
    now rewrite matvec_eye3, matcols_eye3, matmul_eye3.
Qed.

(** The entry for TSL from XHF: the rotation by -pi, transposed. *)
Lemma R_TSL2XHF_value : R_TSL2XHF = ((1, 0, 0), (0, -1, 0), (0, 0, -1)).
Proof.
  unfold R_TSL2XHF, R_XHF2TSL, rot_x, theta_1, transpose.
  rewrite cos_neg, sin_neg, cos_PI, sin_PI.
  split_pairs; ring.
Qed.

(** C3 (the code departs from the claim): a call with a target never sets
    [ref_frame] to that target.  As the file has it the call raises
    [NameError] at line 164 with the voxel untouched, and whatever the free
    name denotes the voxel left behind still carries its old [ref_frame]. *)
Theorem toFrame_never_updates_ref_frame :
  forall (target : string) (self : DAXMvoxel),
    toFrame module_globals (Some target) self
    = (Raise (NameError "g_to_from"), self)
    /\ forall genv : globals,
         ref_frame (snd (toFrame genv (Some target) self)) = ref_frame self.
Proof.
  intros target self. split.
  - apply toFrame_module_globals.
  - intros genv. apply toFrame_ref_frame.
Qed.

(** C5 (the code departs from the claim): converting an XHF voxel at
    (0, 1, 0) to TSL and back does not restore it.  As the file has it both
    calls raise [NameError]; with the free name reaching the class table the
    first call rotates the coordinates to (0, -1, 0) and the second, still
    reading XHF as the current frame, multiplies by the identity, so the
    coordinates end 2 away from where they started. *)
Theorem roundtrip_XHF_TSL_XHF_not_restored :
  let v := voxel_in "XHF" (0, 1, 0) in
  let v1 := snd (toFrame class_scope (Some "TSL"%string) v) in
  let v2 := snd (toFrame class_scope (Some (ref_frame v)) v1) in
  toFrame module_globals (Some "TSL"%string) v
  = (Raise (NameError "g_to_from"), v)
  /\ coords v2 = (0, -1, 0)
  /\ Rabs (snd (fst (coords v2)) - snd (fst (coords v))) > 1e-12.
Proof.
  cbv zeta. split; [reflexivity |].
  erewrite (toFrame_class_scope "TSL" (voxel_in "XHF" (0, 1, 0)));
    [| reflexivity | reflexivity].
  cbn [snd ref_frame voxel_in].
  erewrite toFrame_class_scope; [| reflexivity | reflexivity].
  cbn [snd fst coords voxel_in]. unfold R_XHF2XHF. rewrite matvec_eye3.
  rewrite R_TSL2XHF_value. cbv [matvec dot3].
  split.
  - split_pairs; ring.
  - cbn [fst snd].
    replace (0 * 0 + -1 * 1 + 0 * 0 - 1) with (- (2)) by ring.
    rewrite Rabs_Ropp, Rabs_pos_eq; lra.
Qed.

(** C6 (the code departs from the claim): as the file has it, a target
    outside {APS, TSL, XHF} meets no unknown-frame failure: the call raises
    the [NameError] of line 164, the very exception every other target
    gets, registered or not (the voxel is left as it was).  The guard of
    line 164 would raise its [Exception] for exactly the unregistered
    targets only with the free name reaching the class table. *)
Theorem toFrame_unknown_target_NameError :
  forall (target : string) (self : DAXMvoxel),
    ~ registered target ->
    (forall other : string,
        toFrame module_globals (Some target) self
        = (Raise (NameError "g_to_from"), self)
        /\ toFrame module_globals (Some other) self
           = toFrame module_globals (Some target) self)
    /\ toFrame class_scope (Some target) self = (Raise PyException, self).
Proof.
  intros target self Hun. split.
  - intros other. split; reflexivity.
  - run_method.
    destruct (dict_mem g_to_from target) eqn:Hmem; [| reflexivity].
    apply dict_mem_registered in Hmem. contradiction.
Qed.

Lemma toFrame_unknown_target_NameError_witness :
  (forall other : string,
      toFrame module_globals (Some "LAB"%string) (voxel_in "APS" (1, 1, 1))
      = (Raise (NameError "g_to_from"), voxel_in "APS" (1, 1, 1))
      /\ toFrame module_globals (Some other) (voxel_in "APS" (1, 1, 1))
         = toFrame module_globals (Some "LAB"%string)
             (voxel_in "APS" (1, 1, 1)))
  /\ toFrame class_scope (Some "LAB"%string) (voxel_in "APS" (1, 1, 1))
     = (Raise PyException, voxel_in "APS" (1, 1, 1)).
Proof.
  apply toFrame_unknown_target_NameError.
  unfold registered. intros [H | [H | H]]; discriminate H.
Defined.

(** C8 (the code departs from the claim): as the file has it, asking for
    the voxel's own frame raises [NameError] at line 164; the fields are
    left as they were, but the call fails. *)
Theorem toFrame_own_frame_raises :
  forall self : DAXMvoxel,
    toFrame module_globals (Some (ref_frame self)) self
    = (Raise (NameError "g_to_from"), self).
Proof. intros self. reflexivity. Qed.

(** C10: without a target the call returns at line 163, whatever the free
    name of the later lines denotes: no exception, no field assigned. *)
Theorem toFrame_None_returns :
  forall (genv : globals) (self : DAXMvoxel),
    toFrame genv None self = (Ok tt, self).
Proof. intros genv self. reflexivity. Qed.

(** ** Strain-free scattering vectors *)

Lemma Rleb_true_iff (a b : R) : Rleb a b = true <-> a <= b.
Proof.
  unfold Rleb. destruct (Rle_dec a b); split; intros; try discriminate;
    auto; contradiction.
Qed.

Lemma is_unit_q_true_iff (q : vec3) :
  is_unit_q q = true <-> Rabs (norm q - 1) <= 1e-8.
Proof. apply Rleb_true_iff. Qed.

Lemma put_col_length {A} (j : nat) (c : A) (a : list A) :
  length (put_col j c a) = length a.
Proof.
  revert j. induction a as [| x a IH]; intros [| j]; simpl; auto.
Qed.

Lemma put_col_nth_error {A} (j : nat) (c : A) (a : list A) (i : nat) (x : A) :
  nth_error a i = Some x ->
  nth_error (put_col j c a) i = Some (if Nat.eqb i j then c else x).
Proof.
  revert j i. induction a as [| y a IH]; intros j i Hx.
  - destruct i; discriminate.
  - destruct j as [| j], i as [| i]; simpl in *; auto.
Qed.

Lemma put_cols_length {A} (idx : list nat) (vals : list A) (a : list A) :
  length (put_cols idx vals a) = length a.
Proof.
  revert vals a. induction idx as [| j idx IH]; intros vals a; simpl; auto.
  destruct vals as [| c vals]; auto. now rewrite IH, put_col_length.
Qed.

(** Writing [g j] at every index [j] of [idx]: column [i] ends as [g i] when
    [i] is among the indices and is untouched otherwise. *)
Lemma put_cols_nth_error {A} (g : nat -> A) (idx : list nat) (a : list A)
    (i : nat) (x : A) :
  nth_error a i = Some x ->
  nth_error (put_cols idx (map g idx) a) i
  = Some (if existsb (Nat.eqb i) idx then g i else x).
Proof.
  revert a x. induction idx as [| j idx IH]; intros a x Hx; simpl; auto.
  rewrite (IH _ (if Nat.eqb i j then g j else x)).
  - destruct (Nat.eqb_spec i j) as [-> | Hne]; simpl.
    + now destruct (existsb (Nat.eqb j) idx).
    + reflexivity.
  - now apply put_col_nth_error.
Qed.

Lemma where_from_bound (s : nat) (mask : list bool) :
  Forall (fun j => (j < s + length mask)%nat) (where_from s mask).
Proof.
  revert s. induction mask as [| b mask IH]; intros s; simpl.
  - constructor.
  - specialize (IH (S s)).
    assert (H : Forall (fun j => (j < s + S (length mask))%nat)
                       (where_from (S s) mask)).
    { eapply Forall_impl; [| exact IH]. simpl. intros; lia. }
    destruct b; [constructor; [lia | exact H] | exact H].
Qed.

Lemma where_from_mem (s i : nat) (mask : list bool) :
  existsb (Nat.eqb i) (where_from s mask)
  = (Nat.leb s i && nth (i - s) mask false)%bool.
Proof.
  revert s. induction mask as [| b mask IH]; intros s; simpl.
  - destruct (i - s)%nat; now rewrite andb_false_r.
  - cbn [where_from].
    pose proof (IH (S s)) as Hrest.
    destruct (Nat.leb_spec s i) as [Hle | Hlt].
    + destruct (Nat.eq_dec i s) as [-> | Hne].
      * rewrite Nat.sub_diag.
        assert (Hle' : Nat.leb (S s) s = false) by (apply Nat.leb_gt; lia).
        rewrite Hle' in Hrest. simpl in Hrest.
        destruct b; simpl; rewrite ?Nat.eqb_refl, ?Hrest; reflexivity.
      * replace (i - s)%nat with (S (i - S s)) by lia.
        assert (Hle' : Nat.leb (S s) i = true) by (apply Nat.leb_le; lia).
        rewrite Hle' in Hrest. simpl in Hrest.
        assert (Hneq : Nat.eqb i s = false) by now apply Nat.eqb_neq.
        destruct b; simpl; rewrite ?Hneq, ?Hrest; reflexivity.
    + assert (Hle' : Nat.leb (S s) i = false) by (apply Nat.leb_gt; lia).
      rewrite Hle' in Hrest. simpl in Hrest.
      assert (Hneq : Nat.eqb i s = false) by (apply Nat.eqb_neq; lia).
      destruct b; simpl; rewrite ?Hneq, ?Hrest; reflexivity.
Qed.

Lemma take_cols_in_range {A} (d : A) (a : list A) (idx : list nat) :
  Forall (fun j => (j < length a)%nat) idx ->
  take_cols a idx = Ok (map (fun j => nth j a d) idx).
Proof.
  induction 1 as [| j idx Hj _ IH]; simpl; auto.
  destruct (nth_error a j) as [c |] eqn:E.
  - rewrite IH. simpl. now rewrite (nth_error_nth _ _ d E).
  - apply nth_error_None in E. lia.
Qed.

(** A near-unit measured column beyond the last plane column makes the
    indexing of line 157 raise. *)
Lemma take_cols_out_of_range {A} (a : list A) (idx : list nat) (j : nat) :
  In j idx -> (length a <= j)%nat -> take_cols a idx = Raise IndexError.
Proof.
  induction idx as [| k idx IH]; intros Hin Hj; [contradiction |].
  simpl. destruct (nth_error a k) as [c |] eqn:E.
  - destruct Hin as [-> | Hin].
    + apply nth_error_None in Hj. congruence.
    + now rewrite IH.
  - reflexivity.
Qed.

Lemma where_In (mask : list bool) (j : nat) :
  In j (where_ mask) <-> nth_error mask j = Some true.
Proof.
  unfold where_.
  pose proof (where_from_mem 0 j mask) as Hmem.
  cbn [Nat.leb andb] in Hmem. rewrite Nat.sub_0_r in Hmem.
  split.
  - intros Hin.
    assert (He : existsb (Nat.eqb j) (where_from 0 mask) = true).
    { apply existsb_exists. exists j. split; [exact Hin |].
      apply Nat.eqb_refl. }
    rewrite Hmem in He.
    destruct (nth_error mask j) as [b |] eqn:Hb.
    + now rewrite (nth_error_nth _ _ false Hb) in He; subst.
    + rewrite nth_overflow in He by now apply nth_error_None.
      discriminate He.
  - intros Hb. rewrite (nth_error_nth _ _ false Hb) in Hmem.
    apply existsb_exists in Hmem as [k [Hk Heq]].
    apply Nat.eqb_eq in Heq. now subst.
Qed.

Lemma where_unit_In (sv : cols3) (j : nat) :
  In j (where_ (map is_unit_q sv))
  <-> exists q, nth_error sv j = Some q /\ Rabs (norm q - 1) <= 1e-8.
Proof.
  rewrite where_In, nth_error_map. split.
  - destruct (nth_error sv j) as [q |]; [| discriminate].
    cbn [option_map]. intros H. injection H as H.
    exists q. split; [reflexivity | now apply is_unit_q_true_iff].
  - intros [q [-> Hq]]. cbn [option_map].
    apply is_unit_q_true_iff in Hq. now rewrite Hq.
Qed.

(** C7, amended: without [match_measured] the result is
    [recip_base . plane]; with it, when every measured column of norm within
    1e-8 of 1 has an index below the number of plane columns, the result
    has the same columns except that column [i] is replaced by its
    normalized form exactly when measured column [i] has a norm within 1e-8
    of 1. *)
Theorem scatter_vec0_columns :
  forall self : DAXMvoxel,
    (forall (j : nat) (q : vec3),
        nth_error (scatter_vec self) j = Some q ->
        Rabs (norm q - 1) <= 1e-8 ->
        (j < length (plane self))%nat) ->
    scatter_vec0 self false = Ok (matcols (recip_base self) (plane self))
    /\ exists q0 : cols3,
         scatter_vec0 self true = Ok q0
         /\ length q0 = length (plane self)
         /\ forall (i : nat) (p : vec3),
              nth_error (plane self) i = Some p ->
              (forall q, nth_error (scatter_vec self) i = Some q ->
                         Rabs (norm q - 1) <= 1e-8 ->
                 nth_error q0 i
                 = Some (normalize (matvec (recip_base self) p)))
              /\ ((forall q, nth_error (scatter_vec self) i = Some q ->
                             ~ Rabs (norm q - 1) <= 1e-8) ->
                 nth_error q0 i = Some (matvec (recip_base self) p)).
Proof.
  intros self Hin. split; [reflexivity |].
  unfold scatter_vec0.
  set (q0 := matcols (recip_base self) (plane self)).
  set (idx := where_ (map is_unit_q (scatter_vec self))).
  assert (Hq0 : length q0 = length (plane self))
    by (unfold q0, matcols; apply length_map).
  assert (Hidx : Forall (fun j => (j < length q0)%nat) idx).
  { apply Forall_forall. intros j Hj.
    apply where_unit_In in Hj as [q [Hq Hunit]].
    rewrite Hq0. eauto. }
  rewrite (take_cols_in_range zeros3 _ _ Hidx). simpl.
  rewrite map_map.
  eexists. split; [reflexivity |]. split.
  { now rewrite put_cols_length. }
  intros i p Hp.
  assert (Hq0i : nth_error q0 i = Some (matvec (recip_base self) p)).
  { unfold q0, matcols. now rewrite nth_error_map, Hp. }
  rewrite (put_cols_nth_error (fun j => normalize (nth j q0 zeros3))
             idx q0 i _ Hq0i).
  rewrite (nth_error_nth _ _ zeros3 Hq0i).
  unfold idx, where_. rewrite where_from_mem. simpl. rewrite Nat.sub_0_r.
  split.
  - intros q Hq Hunit.
    pose proof (map_nth_error is_unit_q i (scatter_vec self) Hq) as Hm.
    rewrite (nth_error_nth _ _ false Hm).
    apply is_unit_q_true_iff in Hunit. now rewrite Hunit.
  - intros Hfar.
    destruct (nth_error (scatter_vec self) i) as [q |] eqn:Hq.
    + pose proof (map_nth_error is_unit_q i (scatter_vec self) Hq) as Hm.
      rewrite (nth_error_nth _ _ false Hm).
      destruct (is_unit_q q) eqn:Hunit; [| reflexivity].
      apply is_unit_q_true_iff in Hunit. now apply Hfar in Hunit.
    + rewrite nth_overflow; [reflexivity |].
      rewrite length_map. now apply nth_error_None.
Qed.

Lemma norm_axis_x (k : R) : 0 <= k -> norm (k, 0, 0) = k.
Proof.
  intros Hk. unfold norm, dot3.
  replace (k * k + 0 * 0 + 0 * 0) with (k * k) by ring.
  now apply sqrt_square.
Qed.

Lemma norm_axis_y (k : R) : 0 <= k -> norm (0, k, 0) = k.
Proof.
  intros Hk. unfold norm, dot3.
  replace (0 * 0 + k * k + 0 * 0) with (k * k) by ring.
  now apply sqrt_square.
Qed.

Lemma norm_axis_z (k : R) : 0 <= k -> norm (0, 0, k) = k.
Proof.
  intros Hk. unfold norm, dot3.
  replace (0 * 0 + 0 * 0 + k * k) with (k * k) by ring.
  now apply sqrt_square.
Qed.

Lemma norm_3_4_0 : norm (3, 4, 0) = 5.
Proof.
  unfold norm, dot3.
  replace (3 * 3 + 4 * 4 + 0 * 0) with (5 * 5) by ring.
  apply sqrt_square. lra.
Qed.

Lemma is_unit_q_far (q : vec3) (n : R) :
  norm q = n -> 2 <= n -> is_unit_q q = false.
Proof.
  intros Hn Hge. unfold is_unit_q, Rleb. rewrite Hn.
  destruct (Rle_dec (Rabs (n - 1)) 1e-8) as [Hle |]; [| reflexivity].
  rewrite Rabs_pos_eq in Hle; lra.
Qed.

Lemma is_unit_q_exact (q : vec3) : norm q = 1 -> is_unit_q q = true.
Proof.
  intros Hn. apply is_unit_q_true_iff. rewrite Hn.
  replace (1 - 1) with 0 by ring. rewrite Rabs_R0. lra.
Qed.

Lemma normalize_axis_x : normalize (1, 0, 0) = (1, 0, 0).
Proof.
  unfold normalize, vdiv. rewrite norm_axis_x by lra. split_pairs; field.
Qed.

Lemma normalize_axis_y (k : R) : 0 < k -> normalize (0, k, 0) = (0, 1, 0).
Proof.
  intros Hk. unfold normalize, vdiv. rewrite norm_axis_y by lra.
  split_pairs; field; lra.
Qed.

Lemma scatter_vec0_columns_witness :
  exists q0 : cols3,
    scatter_vec0 (voxel_in "APS" (1, 1, 1)) true = Ok q0
    /\ nth_error q0 0 = Some (normalize (matvec eye3 (1, 0, 0)))
    /\ nth_error q0 1 = Some (matvec eye3 (0, 1, 0)).
Proof.
  destruct (scatter_vec0_columns (voxel_in "APS" (1, 1, 1)))
    as [_ [q0 [Hq0 [_ Hcol]]]].
  - intros j q Hq _. apply (proj1 (nth_error_Some _ j)).
    cbn [plane voxel_in]. cbn [scatter_vec voxel_in] in Hq.
    destruct j as [| [| j]]; simpl in *; try discriminate; congruence.
  - exists q0. split; [exact Hq0 |]. split.
    + apply (proj1 (Hcol 0%nat (1, 0, 0) eq_refl) (1, 0, 0) eq_refl).
      rewrite norm_axis_x by lra.
      replace (1 - 1) with 0 by ring. rewrite Rabs_R0. lra.
    + apply (proj2 (Hcol 1%nat (0, 1, 0) eq_refl)).
      intros q Hq Hunit. injection Hq as <-.
      rewrite norm_axis_y in Hunit by lra.
      rewrite Rabs_pos_eq in Hunit; lra.
Defined.

(** C7 (the claim as stated fails): with one measured column of unit length
    and no plane column there is no column of q0 to normalize; the indexing
    of line 157 raises [IndexError] and nothing is returned. *)
Lemma scatter_vec0_raises_beyond_planes :
  scatter_vec0 unindexed_voxel true = Raise IndexError
  /\ forall q0 : cols3, scatter_vec0 unindexed_voxel true <> Ok q0.
Proof.
  assert (H : scatter_vec0 unindexed_voxel true = Raise IndexError).
  { unfold scatter_vec0.
    cbn [scatter_vec plane recip_base unindexed_voxel map matcols].
    rewrite is_unit_q_exact by (apply norm_axis_x; lra).
    reflexivity. }
  split; [exact H |]. intros q0. rewrite H. discriminate.
Qed.

(** ** The closed-form solver *)

Lemma inv_nonsingular (lu : lapack) (m : mat3) :
  det m <> 0 -> inv lu m = Ok (mscale (/ det m) (adjugate m)).
Proof.
  intros Hdet. unfold inv, Reqb.
  destruct (Req_dec_T (det m) 0); [contradiction | reflexivity].
Qed.

Lemma inv_singular (lu : lapack) (m : mat3) :
  det m = 0 ->
  inv lu m = match lu m with
             | None => Raise LinAlgError
             | Some mi => Ok mi
             end.
Proof.
  intros Hdet. unfold inv, Reqb.
  destruct (Req_dec_T (det m) 0); [reflexivity | contradiction].
Qed.

(** [np.linalg.inv] raises nothing but [LinAlgError]. *)
Lemma inv_raise (lu : lapack) (m : mat3) (e : exn) :
  inv lu m = Raise e -> e = LinAlgError.
Proof.
  unfold inv. destruct (Reqb (det m) 0); [| discriminate].
  destruct (lu m); [discriminate |]. intros H. now injection H.
Qed.

(** On a non-singular matrix what [inv] returns is the inverse, on both
    sides. *)
Lemma inv_correct (lu : lapack) (m mi : mat3) :
  det m <> 0 ->
  inv lu m = Ok mi -> matmul m mi = eye3 /\ matmul mi m = eye3.
Proof.
  intros Hdet Hinv.
  rewrite (inv_nonsingular lu _ Hdet) in Hinv. injection Hinv as <-.
  destruct m as [[[[a b] c] [[d e] f]] [[g h] i]].
  unfold det in Hdet.
  split; cbv [matmul mscale adjugate vscale transpose dot3 eye3 det];
    split_pairs; field; exact Hdet.
Qed.

(** (m . n)^t = n^t . m^t *)
Lemma transpose_matmul (m n : mat3) :
  transpose (matmul m n) = matmul (transpose n) (transpose m).
Proof.
  destruct m as [[[[a b] c] [[d e] f]] [[g h] i]].
  destruct n as [[[[a' b'] c'] [[d' e'] f']] [[g' h'] i']].
  cbv [matmul transpose dot3]. split_pairs; ring.
Qed.

Lemma dot_T_same_length (a b : cols3) (m : mat3) :
  dot_T a b = Ok m -> length a = length b.
Proof.
  unfold dot_T. destruct (Nat.eqb_spec (length a) (length b)); auto.
  discriminate.
Qed.

Lemma dot_T_self (a : cols3) : exists m, dot_T a a = Ok m.
Proof. unfold dot_T. rewrite Nat.eqb_refl. eauto. Qed.

(** The solver, step by step, once its intermediate arrays are named. *)
Lemma deformation_gradientL2_steps (lu : lapack) (self : DAXMvoxel)
    (q0 : cols3) (A B : mat3) :
  scatter_vec0 self true = Ok q0 ->
  dot_T (scatter_vec self) q0 = Ok A ->
  dot_T q0 q0 = Ok B ->
  deformation_gradientL2 lu self
  = rbind (inv lu A)
          (fun Ainv => Ok (matmul (transpose Ainv) (transpose B))).
Proof.
  intros Hq0 HA HB. unfold deformation_gradientL2.
  rewrite Hq0. cbn [rbind Ok]. rewrite HA. cbn [rbind Ok]. rewrite HB.
  reflexivity.
Qed.

Lemma sheared_q0 :
  scatter_vec0 sheared_voxel true = Ok [(2, 0, 0); (0, 1, 0); (0, 0, 1)].
Proof.
  unfold scatter_vec0.
  cbn [scatter_vec plane recip_base sheared_voxel map].
  rewrite (is_unit_q_far (2, 0, 0) 2), (is_unit_q_far (3, 4, 0) 5),
    (is_unit_q_far (0, 0, 2) 2);
    try lra; try apply norm_3_4_0;
    try (apply norm_axis_x; lra); try (apply norm_axis_z; lra).
  cbn [where_ where_from take_cols rbind Ok map put_cols].
  now rewrite matcols_eye3.
Qed.

Lemma sheared_A_value :
  dot_T (scatter_vec sheared_voxel) [(2, 0, 0); (0, 1, 0); (0, 0, 1)]
  = Ok sheared_A.
Proof.
  cbv [dot_T sheared_voxel scatter_vec length Nat.eqb combine fold_right
       fst snd outer madd vadd vscale mzero zeros3 Ok sheared_A].
  f_equal. split_pairs; ring.
Qed.

Lemma sheared_B_value :
  dot_T [(2, 0, 0); (0, 1, 0); (0, 0, 1)] [(2, 0, 0); (0, 1, 0); (0, 0, 1)]
  = Ok sheared_B.
Proof.
  cbv [dot_T length Nat.eqb combine fold_right
       fst snd outer madd vadd vscale mzero zeros3 Ok sheared_B].
  f_equal. split_pairs; ring.
Qed.

Lemma sheared_Ainv_value (lu : lapack) : inv lu sheared_A = Ok sheared_Ainv.
Proof.
  assert (Hdet : det sheared_A = 32) by (cbv [det sheared_A]; ring).
  rewrite inv_nonsingular by (rewrite Hdet; lra).
  rewrite Hdet. f_equal.
  cbv [mscale adjugate vscale sheared_A sheared_Ainv].
  split_pairs; field.
Qed.

(** C2 (the claim as stated fails): on the sheared voxel A is invertible
    and the solver returns a matrix whose entry (1,0) is -3/4, while
    (A^-1 . B)^t has -3/16 there. *)
Lemma deformation_gradientL2_not_AinvB_t :
  scatter_vec0 sheared_voxel true = Ok [(2, 0, 0); (0, 1, 0); (0, 0, 1)]
  /\ dot_T (scatter_vec sheared_voxel) [(2, 0, 0); (0, 1, 0); (0, 0, 1)]
     = Ok sheared_A
  /\ dot_T [(2, 0, 0); (0, 1, 0); (0, 0, 1)] [(2, 0, 0); (0, 1, 0); (0, 0, 1)]
     = Ok sheared_B
  /\ (forall lu : lapack, inv lu sheared_A = Ok sheared_Ainv)
  /\ (forall lu : lapack,
        deformation_gradientL2 lu sheared_voxel
        <> Ok (transpose (matmul sheared_Ainv sheared_B))).
Proof.
  split; [apply sheared_q0 |].
  split; [apply sheared_A_value |].
  split; [apply sheared_B_value |].
  split; [apply sheared_Ainv_value |].
  intros lu.
  rewrite (deformation_gradientL2_steps _ _ _ _ _
             sheared_q0 sheared_A_value sheared_B_value).
  rewrite sheared_Ainv_value. cbn [rbind Ok].
  cbv [matmul transpose dot3 sheared_Ainv sheared_B].
  intros H. injection H; intros; lra.
Qed.

(** C2, amended: when A = q . q0^t is invertible the solver returns
    F = (B . A^-1)^t = A^-t . B^t, with A^-1 the inverse of A on both sides,
    B = q0 . q0^t and q0 the strain-free columns matched against q. *)
Theorem deformation_gradientL2_closed_form :
  forall (lu : lapack) (self : DAXMvoxel) (q0 : cols3) (A B : mat3),
    scatter_vec0 self true = Ok q0 ->
    dot_T (scatter_vec self) q0 = Ok A ->
    dot_T q0 q0 = Ok B ->
    det A <> 0 ->
    exists Ainv : mat3,
      matmul A Ainv = eye3 /\ matmul Ainv A = eye3
      /\ deformation_gradientL2 lu self = Ok (transpose (matmul B Ainv))
      /\ deformation_gradientL2 lu self
         = Ok (matmul (transpose Ainv) (transpose B)).
Proof.
  intros lu self q0 A B Hq0 HA HB Hdet.
  pose proof (inv_nonsingular lu A Hdet) as Hinv.
  destruct (inv_correct _ _ _ Hdet Hinv) as [Hr Hl].
  exists (mscale (/ det A) (adjugate A)).
  rewrite (deformation_gradientL2_steps _ _ _ _ _ Hq0 HA HB), Hinv.
  cbn [rbind Ok]. rewrite transpose_matmul. auto.
Qed.

Lemma deformation_gradientL2_closed_form_witness :
  exists Ainv : mat3,
    matmul sheared_A Ainv = eye3 /\ matmul Ainv sheared_A = eye3
    /\ deformation_gradientL2 exact_pivots sheared_voxel
       = Ok (transpose (matmul sheared_B Ainv))
    /\ deformation_gradientL2 exact_pivots sheared_voxel
       = Ok (matmul (transpose Ainv) (transpose sheared_B)).
Proof.
  apply (deformation_gradientL2_closed_form exact_pivots sheared_voxel
           [(2, 0, 0); (0, 1, 0); (0, 0, 1)]).
  - apply sheared_q0.
  - apply sheared_A_value.
  - apply sheared_B_value.
  - cbv [det sheared_A]. lra.
Defined.

(** Fewer than three measured columns cannot span space: A is singular. *)
Lemma dot_T_short_singular (a b : cols3) (A : mat3) :
  (length a < 3)%nat -> dot_T a b = Ok A -> det A = 0.
Proof.
  intros Hshort HA. pose proof (dot_T_same_length _ _ _ HA) as Hlen.
  unfold dot_T in HA. rewrite Hlen, Nat.eqb_refl in HA.
  injection HA as <-.
  destruct a as [| [[u0 u1] u2] [| [[v0 v1] v2] [| w a]]];
    simpl in Hshort; try lia;
    destruct b as [| [[x0 x1] x2] [| [[y0 y1] y2] [| z b]]];
    try discriminate Hlen;
    cbv [combine fold_right fst snd outer madd vadd vscale mzero zeros3 det];
    ring.
Qed.

Lemma flat_q0 : scatter_vec0 flat_voxel true = Ok [(2, 0, 0); (0, 1, 0)].
Proof.
  unfold scatter_vec0.
  cbn [scatter_vec plane recip_base flat_voxel map].
  rewrite (is_unit_q_far (2, 0, 0) 2), (is_unit_q_far (3, 4, 0) 5);
    try lra; try apply norm_3_4_0; try (apply norm_axis_x; lra).
  cbn [where_ where_from take_cols rbind Ok map put_cols].
  now rewrite matcols_eye3.
Qed.

Lemma flat_A :
  dot_T (scatter_vec flat_voxel) [(2, 0, 0); (0, 1, 0)]
  = Ok ((4, 3, 0), (0, 4, 0), (0, 0, 0)).
Proof.
  cbv [dot_T flat_voxel scatter_vec length Nat.eqb combine fold_right
       fst snd outer madd vadd vscale mzero zeros3 Ok].
  f_equal. split_pairs; ring.
Qed.

(** A direction [w] at right angles to every column of [a] is annihilated
    by (a . b^t)^t. *)
Lemma dot_T_left_null (a b : cols3) (A : mat3) (w : vec3) :
  dot_T a b = Ok A ->
  (forall q, In q a -> dot3 w q = 0) ->
  matvec (transpose A) w = zeros3.
Proof.
  intros HA Hw. pose proof (dot_T_same_length _ _ _ HA) as Hlen.
  unfold dot_T in HA. rewrite Hlen, Nat.eqb_refl in HA.
  injection HA as <-. clear Hlen.
  revert b. induction a as [| u a IH]; intros b.
  - destruct w as [[w0 w1] w2]. cbv [combine fold_right].
    cbv [matvec transpose mzero zeros3 dot3]. split_pairs; ring.
  - destruct b as [| v b].
    + destruct w as [[w0 w1] w2].
      cbv [combine fold_right matvec transpose mzero zeros3 dot3].
      split_pairs; ring.
    + cbn [combine fold_right fst snd].
      assert (Hu : dot3 w u = 0) by (apply Hw; now left).
      assert (Hrest : forall q, In q a -> dot3 w q = 0)
        by (intros q Hq; apply Hw; now right).
      specialize (IH Hrest b). revert IH.
      generalize (fold_right
                    (fun uv acc => madd (outer (fst uv) (snd uv)) acc)
                    mzero (combine a b)).
      intros [[[[a0 b0] c0] [[d0 e0] f0]] [[g0 h0] i0]].
      destruct w as [[w0 w1] w2], u as [[u0 u1] u2], v as [[v0 v1] v2].
      cbv [matvec transpose madd outer vadd vscale zeros3 dot3] in *.
      intros IH. injection IH as E1 E2 E3.
      clear Hw Hrest. split_pairs.
      * replace ((u0 * v0 + a0) * w0 + (u1 * v0 + d0) * w1
                 + (u2 * v0 + g0) * w2)
          with (v0 * (w0 * u0 + w1 * u1 + w2 * u2)
                + (a0 * w0 + d0 * w1 + g0 * w2)) by ring.
        rewrite Hu, E1. ring.
      * replace ((u0 * v1 + b0) * w0 + (u1 * v1 + e0) * w1
                 + (u2 * v1 + h0) * w2)
          with (v1 * (w0 * u0 + w1 * u1 + w2 * u2)
                + (b0 * w0 + e0 * w1 + h0 * w2)) by ring.
        rewrite Hu, E2. ring.
      * replace ((u0 * v2 + c0) * w0 + (u1 * v2 + f0) * w1
                 + (u2 * v2 + i0) * w2)
          with (v2 * (w0 * u0 + w1 * u1 + w2 * u2)
                + (c0 * w0 + f0 * w1 + i0 * w2)) by ring.
        rewrite Hu, E3. ring.
Qed.

(** A matrix with a non-zero left null vector has determinant zero. *)
Lemma det_left_null (A : mat3) (w : vec3) :
  w <> zeros3 -> matvec (transpose A) w = zeros3 -> det A = 0.
Proof.
  destruct A as [[[[a b] c] [[d e] f]] [[g h] i]], w as [[w0 w1] w2].
  cbv [matvec transpose zeros3 dot3 det]. intros Hw Hnull.
  injection Hnull as E1 E2 E3.
  set (D := a * (e * i - f * h) - b * (d * i - f * g) + c * (d * h - e * g)).
  assert (H0 : w0 * D = 0).
  { replace (w0 * D)
      with ((e * i - f * h) * (a * w0 + d * w1 + g * w2)
            - (d * i - f * g) * (b * w0 + e * w1 + h * w2)
            + (d * h - e * g) * (c * w0 + f * w1 + i * w2))
      by (unfold D; ring).
    rewrite E1, E2, E3. ring. }
  assert (H1 : w1 * D = 0).
  { replace (w1 * D)
      with (- (b * i - c * h) * (a * w0 + d * w1 + g * w2)
            + (a * i - c * g) * (b * w0 + e * w1 + h * w2)
            - (a * h - b * g) * (c * w0 + f * w1 + i * w2))
      by (unfold D; ring).
    rewrite E1, E2, E3. ring. }
  assert (H2 : w2 * D = 0).
  { replace (w2 * D)
      with ((b * f - c * e) * (a * w0 + d * w1 + g * w2)
            - (a * f - c * d) * (b * w0 + e * w1 + h * w2)
            + (a * e - b * d) * (c * w0 + f * w1 + i * w2))
      by (unfold D; ring).
    rewrite E1, E2, E3. ring. }
  destruct (Req_dec_T D 0) as [HD | HD]; [exact HD |].
  exfalso. apply Hw.
  apply Rmult_integral in H0 as [-> | H0]; [| contradiction].
  apply Rmult_integral in H1 as [-> | H1]; [| contradiction].
  apply Rmult_integral in H2 as [-> | H2]; [| contradiction].
  reflexivity.
Qed.

Lemma is_unit_q_long (q : vec3) : 4 <= dot3 q q -> is_unit_q q = false.
Proof.
  intros Hlong. unfold is_unit_q, Rleb.
  assert (Hn : 2 <= norm q).
  { unfold norm. rewrite <- (sqrt_square 2) by lra.
    apply sqrt_le_1_alt. lra. }
  destruct (Rle_dec (Rabs (norm q - 1)) 1e-8) as [Hle |]; [| reflexivity].
  rewrite Rabs_pos_eq in Hle; lra.
Qed.

Lemma coplanar_q0 :
  scatter_vec0 coplanar_voxel true = Ok [(1, 0, 0); (0, 1, 0); (0, 0, 1)].
Proof.
  unfold scatter_vec0.
  cbn [scatter_vec plane recip_base coplanar_voxel map].
  rewrite !is_unit_q_long by (cbv [dot3]; lra).
  cbn [where_ where_from take_cols rbind Ok map put_cols].
  now rewrite matcols_eye3.
Qed.

Lemma coplanar_A_value :
  dot_T (scatter_vec coplanar_voxel) [(1, 0, 0); (0, 1, 0); (0, 0, 1)]
  = Ok coplanar_A.
Proof.
  cbv [dot_T coplanar_voxel scatter_vec length Nat.eqb combine fold_right
       fst snd outer madd vadd vscale mzero zeros3 Ok coplanar_A].
  f_equal. split_pairs; ring.
Qed.

Lemma coplanar_B_value :
  dot_T [(1, 0, 0); (0, 1, 0); (0, 0, 1)] [(1, 0, 0); (0, 1, 0); (0, 0, 1)]
  = Ok eye3.
Proof.
  cbv [dot_T length Nat.eqb combine fold_right
       fst snd outer madd vadd vscale mzero zeros3 Ok eye3].
  f_equal. split_pairs; ring.
Qed.

(** C9 (the claim as stated fails): the three measured columns of the
    coplanar voxel give the singular A = ((1,2,3), (4,5,6), (7,8,9)); when
    rounding in the factorization hides the zero pivot and a matrix comes
    back, line 191 raises nothing and the solver returns that matrix,
    transposed, as the deformation gradient. *)
Lemma deformation_gradientL2_returns_on_singular :
  scatter_vec0 coplanar_voxel true = Ok [(1, 0, 0); (0, 1, 0); (0, 0, 1)]
  /\ dot_T (scatter_vec coplanar_voxel) [(1, 0, 0); (0, 1, 0); (0, 0, 1)]
     = Ok coplanar_A
  /\ det coplanar_A = 0
  /\ deformation_gradientL2 (rounded_pivots huge) coplanar_voxel
     = Ok (transpose huge).
Proof.
  split; [apply coplanar_q0 |].
  split; [apply coplanar_A_value |].
  split; [cbv [det coplanar_A]; ring |].
  rewrite (deformation_gradientL2_steps _ _ _ _ _
             coplanar_q0 coplanar_A_value coplanar_B_value).
  rewrite inv_singular by (cbv [det coplanar_A]; ring).
  cbn [rounded_pivots rbind Ok]. f_equal.
  cbv [matmul transpose dot3 eye3 huge]. split_pairs; ring.
Qed.

(** C9, amended: the solver has no check of its own.  When A = q . q0^t is
    singular (determinant zero, as when all measured columns are at right
    angles to one direction, fewer than three independent ones) it raises
    [LinAlgError] exactly when the factorization inside [np.linalg.inv]
    meets the zero pivot; when a matrix G comes back instead, the solver
    returns the degenerate G^t . B^t. *)
Theorem deformation_gradientL2_singular :
  forall (lu : lapack) (self : DAXMvoxel) (q0 : cols3) (A B : mat3),
    scatter_vec0 self true = Ok q0 ->
    dot_T (scatter_vec self) q0 = Ok A ->
    dot_T q0 q0 = Ok B ->
    (det A = 0
     \/ exists w : vec3,
          w <> zeros3 /\ forall q, In q (scatter_vec self) -> dot3 w q = 0) ->
    deformation_gradientL2 lu self
    = match lu A with
      | None => Raise LinAlgError
      | Some G => Ok (matmul (transpose G) (transpose B))
      end.
Proof.
  intros lu self q0 A B Hq0 HA HB Hsing.
  assert (Hdet : det A = 0).
  { destruct Hsing as [Hdet | [w [Hw Horth]]]; [exact Hdet |].
    apply (det_left_null A w Hw).
    now apply (dot_T_left_null _ _ _ _ HA). }
  rewrite (deformation_gradientL2_steps _ _ _ _ _ Hq0 HA HB).
  rewrite (inv_singular _ _ Hdet). now destruct (lu A).
Qed.

Lemma deformation_gradientL2_singular_witness :
  deformation_gradientL2 exact_pivots flat_voxel = Raise LinAlgError
  /\ deformation_gradientL2 (rounded_pivots huge) coplanar_voxel
     = Ok (matmul (transpose huge) (transpose eye3)).
Proof.
  split.
  - apply (deformation_gradientL2_singular exact_pivots flat_voxel
             [(2, 0, 0); (0, 1, 0)] ((4, 3, 0), (0, 4, 0), (0, 0, 0))
             ((4, 0, 0), (0, 1, 0), (0, 0, 0))).
    + apply flat_q0.
    + apply flat_A.
    + cbv [dot_T length Nat.eqb combine fold_right
           fst snd outer madd vadd vscale mzero zeros3 Ok].
      f_equal. split_pairs; ring.
    + right. exists (0, 0, 1). split.
      * intros H. injection H as H. lra.
      * intros q [<- | [<- | []]]; cbv [dot3]; ring.
  - apply (deformation_gradientL2_singular (rounded_pivots huge)
             coplanar_voxel [(1, 0, 0); (0, 1, 0); (0, 0, 1)] coplanar_A eye3).
    + apply coplanar_q0.
    + apply coplanar_A_value.
    + apply coplanar_B_value.
    + left. cbv [det coplanar_A]. ring.
Defined.

(** ** Pairing measured vectors with planes *)

Lemma Rltb_true_iff (a b : R) : Rltb a b = true <-> a < b.
Proof.
  unfold Rltb. destruct (Rlt_dec a b); split; intros; try discriminate;
    auto; contradiction.
Qed.

Lemma Rltb_false_iff (a b : R) : Rltb a b = false <-> b <= a.
Proof.
  unfold Rltb. destruct (Rlt_dec a b); split; intros; try discriminate;
    auto; lra.
Qed.

(** [argmin_from] keeps an index whose entry is least among those seen. *)
Lemma argmin_from_least (pre l : list R) (best_i : nat) (best : R) :
  nth_error pre best_i = Some best ->
  (forall x, In x pre -> best <= x) ->
  let k := argmin_from best_i best (length pre) l in
  exists m, nth_error (pre ++ l) k = Some m
            /\ forall x, In x (pre ++ l) -> m <= x.
Proof.
  revert pre best_i best.
  induction l as [| y l IH]; intros pre best_i best Hbest Hmin; cbn zeta.
  - simpl. rewrite app_nil_r. eauto.
  - simpl.
    replace (pre ++ y :: l) with ((pre ++ [y]) ++ l)
      by (rewrite <- app_assoc; reflexivity).
    replace (S (length pre)) with (length (pre ++ [y]))
      by (rewrite length_app; simpl; lia).
    destruct (Rltb y best) eqn:Hlt.
    + apply Rltb_true_iff in Hlt. apply IH.
      * rewrite nth_error_app2 by lia. now rewrite Nat.sub_diag.
      * intros x Hx. apply in_app_or in Hx as [Hx | [<- | []]]; [| lra].
        specialize (Hmin x Hx). lra.
    + apply Rltb_false_iff in Hlt. apply IH.
      * rewrite nth_error_app1; [exact Hbest |].
        apply nth_error_Some. congruence.
      * intros x Hx. apply in_app_or in Hx as [Hx | [<- | []]]; auto.
Qed.

(** [np.argmin] returns the index of a least entry: in line 265 that is the
    measured vector of least cosine to q0, the largest angle. *)
Lemma argmin_least (l : list R) (k : nat) :
  argmin l = Some k ->
  exists m, nth_error l k = Some m /\ forall x, In x l -> m <= x.
Proof.
  destruct l as [| y l]; [discriminate |].
  intros H. injection H as <-.
  apply (argmin_from_least [y] l 0 y).
  - reflexivity.
  - intros x [<- | []]. lra.
Qed.

Lemma argmin_two_second (a b : R) : b < a -> argmin [a; b] = Some 1%nat.
Proof.
  intros H. apply Rltb_true_iff in H. simpl. now rewrite H.
Qed.

Lemma argmin_two_first (a b : R) : a <= b -> argmin [a; b] = Some 0%nat.
Proof.
  intros H. apply Rltb_false_iff in H. simpl. now rewrite H.
Qed.

(** The angular scores of line 263 on the two-column voxel: each plane
    direction lies exactly along one measured vector (cosine 1) and at a
    right angle to the other (cosine 0). *)
Lemma pair_step_first (acc : cols3 * cols2) :
  pair_step (voxel_in "APS" (1, 1, 1)) [(1, 0, 0); (0, 1, 0)] acc 0
  = Ok (put_col 0 (0, 2, 0) (fst acc), put_col 0 (30, 40) (snd acc)).
Proof.
  destruct acc as [new_scatter_vec new_peak]. unfold pair_step.
  cbn [voxel_in plane recip_base scatter_vec peak nth map].
  rewrite matvec_eye3, normalize_axis_x.
  rewrite argmin_two_second by (cbv [dot3]; lra).
  reflexivity.
Qed.

Lemma pair_step_second (acc : cols3 * cols2) :
  pair_step (voxel_in "APS" (1, 1, 1)) [(1, 0, 0); (0, 1, 0)] acc 1
  = Ok (put_col 1 (1, 0, 0) (fst acc), put_col 1 (10, 20) (snd acc)).
Proof.
  destruct acc as [new_scatter_vec new_peak]. unfold pair_step.
  cbn [voxel_in plane recip_base scatter_vec peak nth map].
  rewrite matvec_eye3, (normalize_axis_y 1) by lra.
  rewrite argmin_two_first by (cbv [dot3]; lra).
  reflexivity.
Qed.

(** C1 (the code departs from the claim): on a voxel whose two planes each
    have a measured vector exactly along their direction, the pairing gives
    every plane the other, perpendicular vector and its peak: line 265
    takes the least cosine, the largest angle. *)
Theorem pair_scattervec_plane_takes_largest_angle :
  pair_scattervec_plane (voxel_in "APS" (1, 1, 1))
  = (Ok tt,
     mkVoxel (Some "Cloud"%string) "APS" (1, 1, 1) (Some "hidden"%string)
             [(0, 2, 0); (1, 0, 0)] [(1, 0, 0); (0, 1, 0)] eye3
             [(30, 40); (10, 20)] 0 []).
Proof.
  unfold pair_scattervec_plane, bind, get_self, lift, Ok.
  set (v := voxel_in "APS" (1, 1, 1)).
  change (scatter_vec v) with [(1, 0, 0); (0, 2, 0)].
  change (plane v) with [(1, 0, 0); (0, 1, 0)].
  cbn [map length seq repeat pair_loop].
  rewrite normalize_axis_x, (normalize_axis_y 2) by lra.
  subst v. rewrite pair_step_first. cbn [rbind Ok fst snd put_col].
  rewrite pair_step_second. reflexivity.
Qed.

(** In general: the column the loop body assigns is one of least cosine to
    the plane's direction among all measured vectors. *)
Lemma pair_step_least_cosine (self : DAXMvoxel) (acc acc' : cols3 * cols2)
    (i : nat) :
  pair_step self (map normalize (scatter_vec self)) acc i = Ok acc' ->
  let q0 := normalize (matvec (recip_base self) (nth i (plane self) zeros3)) in
  exists (idx : nat) (q : vec3) (pk : vec2),
    nth_error (scatter_vec self) idx = Some q
    /\ nth_error (peak self) idx = Some pk
    /\ acc' = (put_col i q (fst acc), put_col i pk (snd acc))
    /\ forall q', In q' (scatter_vec self) ->
                  dot3 q0 (normalize q) <= dot3 q0 (normalize q').
Proof.
  destruct acc as [new_scatter_vec new_peak]. unfold pair_step. cbn zeta.
  set (q0 := normalize (matvec (recip_base self) (nth i (plane self) zeros3))).
  destruct (argmin (map (dot3 q0) (map normalize (scatter_vec self))))
    as [idx |] eqn:Harg; [| discriminate].
  destruct (nth_error (scatter_vec self) idx) as [q |] eqn:Hq;
    [| discriminate].
  destruct (nth_error (peak self) idx) as [pk |] eqn:Hpk; [| discriminate].
  intros H. injection H as <-.
  exists idx, q, pk. repeat split; auto.
  intros q' Hin.
  destruct (argmin_least _ _ Harg) as [m [Hm Hleast]].
  rewrite map_map in Hm.
  rewrite (map_nth_error (fun x => dot3 q0 (normalize x)) _ _ Hq) in Hm.
  injection Hm as <-.
  apply Hleast. rewrite map_map.
  apply (in_map (fun x => dot3 q0 (normalize x))), Hin.
Qed.

(** ** The nonlinear solver *)

Lemma inv_eye3_plus_zero (lu : lapack) :
  inv lu (madd eye3 ((0, 0, 0), (0, 0, 0), (0, 0, 0))) = Ok eye3.
Proof.
  assert (Hdet : det (madd eye3 ((0, 0, 0), (0, 0, 0), (0, 0, 0))) = 1)
    by (cbv [det madd vadd eye3]; ring).
  rewrite inv_nonsingular by (rewrite Hdet; lra).
  rewrite Hdet. f_equal.
  cbv [mscale adjugate vscale madd vadd eye3]. split_pairs; field.
Qed.

(** C4 (the claim as stated fails): the optimizer reports no convergence,
    and the solver returns a matrix all the same, the identity. *)
Lemma deformation_gradient_opt_returns_unconverged :
  res_success stalled = false
  /\ (forall lu : lapack,
        deformation_gradient_opt (minimize_returning stalled) lu 1e-1
          sheared_voxel
        = Ok eye3).
Proof.
  split; [reflexivity |]. intros lu.
  unfold deformation_gradient_opt, scatter_vec0, minimize_returning, stalled.
  cbn [rbind Ok res_x repeat reshape33].
  now rewrite inv_eye3_plus_zero.
Qed.

(** C4, amended: the solver never looks at the convergence flag.  A fault
    raised by the optimizer leaves the solver as that same fault; a result
    handed back, converged or not, is turned into F = (I + Delta)^(-t)
    whenever I + Delta is invertible. *)
Theorem deformation_gradient_opt_ignores_convergence :
  forall (minimize : (list R -> result R) -> list R -> R -> (list R -> R)
                     -> Z -> result OptimizeResult)
         (lu : lapack) (eps : R) (self : DAXMvoxel),
    let q0 := matcols (recip_base self) (plane self) in
    let run :=
      minimize (fun f => objectiveDante f q0 (scatter_vec self))
               (repeat 0 9) 1e-14 (fun x => constraint x eps)
               10000000000%Z in
    (forall e : exn,
        run = Raise e ->
        deformation_gradient_opt minimize lu eps self = Raise e)
    /\ (forall (rst : OptimizeResult) (d : mat3),
          run = Ok rst ->
          reshape33 (res_x rst) = Ok d ->
          det (madd eye3 d) <> 0 ->
          exists fstar_inv : mat3,
            matmul (madd eye3 d) fstar_inv = eye3
            /\ matmul fstar_inv (madd eye3 d) = eye3
            /\ deformation_gradient_opt minimize lu eps self
               = Ok (transpose fstar_inv)).
Proof.
  intros minimize lu eps self q0 run. split.
  - intros e Hrun. unfold deformation_gradient_opt, scatter_vec0.
    cbn [rbind Ok]. fold q0. fold run. now rewrite Hrun.
  - intros rst d Hrun Hd Hdet.
    pose proof (inv_nonsingular lu _ Hdet) as Hinv.
    destruct (inv_correct _ _ _ Hdet Hinv) as [Hr Hl].
    exists (mscale (/ det (madd eye3 d)) (adjugate (madd eye3 d))).
    repeat split; auto.
    unfold deformation_gradient_opt, scatter_vec0.
    cbn [rbind Ok]. fold q0. fold run. rewrite Hrun.
    cbn [rbind Ok]. rewrite Hd. cbn [rbind Ok]. now rewrite Hinv.
Qed.

Lemma deformation_gradient_opt_ignores_convergence_witness :
  deformation_gradient_opt (minimize_raising (OtherError 0)) exact_pivots 1e-1
    sheared_voxel
  = Raise (OtherError 0)
  /\ exists fstar_inv : mat3,
       matmul (madd eye3 ((0, 0, 0), (0, 0, 0), (0, 0, 0))) fstar_inv = eye3
       /\ matmul fstar_inv (madd eye3 ((0, 0, 0), (0, 0, 0), (0, 0, 0))) = eye3
       /\ deformation_gradient_opt (minimize_returning stalled) exact_pivots
            1e-1 sheared_voxel
          = Ok (transpose fstar_inv).
Proof.
  split.
  - apply (proj1 (deformation_gradient_opt_ignores_convergence
                    (minimize_raising (OtherError 0)) exact_pivots 1e-1
                    sheared_voxel)).
    reflexivity.
  - apply (proj2 (deformation_gradient_opt_ignores_convergence
                    (minimize_returning stalled) exact_pivots 1e-1
                    sheared_voxel)
             stalled).
    + reflexivity.
    + reflexivity.
    + cbv [det madd vadd eye3]. lra.
Defined.

(* ================================================================== *)
(** * Further properties of the code *)

(** ** The rotation table, lines 31-68 *)

Lemma rot_x_transpose (theta : R) : transpose (rot_x theta) = rot_x (- theta).
Proof.
  unfold rot_x, transpose. rewrite cos_neg, sin_neg.
  split_pairs; ring.
Qed.

Lemma rot_x_matmul (alpha beta : R) :
  matmul (rot_x alpha) (rot_x beta) = rot_x (alpha + beta).
Proof.
  unfold rot_x. cbv [matmul transpose dot3].
  rewrite cos_plus, sin_plus. split_pairs; ring.
Qed.

Lemma rot_x_zero : rot_x 0 = eye3.
Proof.
  unfold rot_x, eye3. rewrite cos_0, sin_0. split_pairs; ring.
Qed.

Lemma rot_x_det (theta : R) : det (rot_x theta) = 1.
Proof.
  unfold rot_x, det. pose proof (sin2_cos2 theta) as H.
  unfold Rsqr in H. nra.
Qed.

Lemma rot_x_isometry (theta : R) (u v : vec3) :
  dot3 (matvec (rot_x theta) u) (matvec (rot_x theta) v) = dot3 u v.
Proof.
  destruct u as [[u0 u1] u2], v as [[v0 v1] v2].
  cbv [rot_x matvec dot3]. pose proof (sin2_cos2 theta) as H.
  unfold Rsqr in H.
  replace ((1 * u0 + 0 * u1 + 0 * u2) * (1 * v0 + 0 * v1 + 0 * v2)
           + (0 * u0 + cos theta * u1 + - sin theta * u2)
             * (0 * v0 + cos theta * v1 + - sin theta * v2)
           + (0 * u0 + sin theta * u1 + cos theta * u2)
             * (0 * v0 + sin theta * v1 + cos theta * v2))
    with (u0 * v0
          + (sin theta * sin theta + cos theta * cos theta) * (u1 * v1)
          + (sin theta * sin theta + cos theta * cos theta) * (u2 * v2))
    by ring.
  rewrite H. ring.
Qed.

(** Every entry of the table between registered frames is the rotation by
    the difference of the two frames' angles. *)
Lemma g_entry_angle (target current : string) :
  registered target -> registered current ->
  g_entry target current
  = Some (rot_x (frame_angle target - frame_angle current)).
Proof.
  intros [-> | [-> | ->]] [-> | [-> | ->]];
    cbv [g_entry g_to_from dict_get String.eqb Ascii.eqb Bool.eqb
         frame_angle];
    f_equal;
    unfold R_TSL2APS, R_APS2XHF, R_TSL2XHF;
    unfold R_APS2APS, R_TSL2TSL, R_XHF2XHF, R_APS2TSL, R_XHF2APS, R_XHF2TSL,
      theta_1, theta_2, theta_3;
    rewrite ?rot_x_transpose, <- ?rot_x_zero;
    f_equal; lra.
Qed.

Lemma g_entry_registered (target current : string) (g : mat3) :
  g_entry target current = Some g -> registered target /\ registered current.
Proof.
  unfold g_entry. intros H.
  assert (Ht : registered target).
  { apply dict_mem_registered. unfold dict_mem.
    now destruct (dict_get g_to_from target). }
  split; [exact Ht |].
  unfold registered.
  destruct Ht as [-> | [-> | ->]];
    cbn [g_to_from dict_get String.eqb Ascii.eqb Bool.eqb] in H;
    destruct (String.eqb_spec current "APS"); auto;
    destruct (String.eqb_spec current "TSL"); auto;
    destruct (String.eqb_spec current "XHF"); auto;
    discriminate H.
Qed.

(** X1: between any two registered frames the table has an entry; it is a
    proper rotation (orthogonal, determinant 1) and the entry for the
    opposite direction is its transpose. *)
Theorem g_to_from_entries_are_rotations :
  forall target current : string,
    registered target -> registered current ->
    exists g : mat3,
      g_entry target current = Some g
      /\ matmul g (transpose g) = eye3
      /\ matmul (transpose g) g = eye3
      /\ det g = 1
      /\ g_entry current target = Some (transpose g).
Proof.
  intros target current Ht Hc.
  exists (rot_x (frame_angle target - frame_angle current)).
  split; [now apply g_entry_angle |].
  rewrite rot_x_transpose, !rot_x_matmul.
  replace (frame_angle target - frame_angle current
           + - (frame_angle target - frame_angle current)) with 0 by ring.
  replace (- (frame_angle target - frame_angle current)
           + (frame_angle target - frame_angle current)) with 0 by ring.
  rewrite rot_x_zero, rot_x_det.
  repeat split; auto.
  rewrite (g_entry_angle current target Hc Ht). do 2 f_equal. ring.
Qed.

Lemma g_to_from_entries_are_rotations_witness :
  exists g : mat3,
    g_entry "TSL" "APS" = Some g
    /\ matmul g (transpose g) = eye3
    /\ matmul (transpose g) g = eye3
    /\ det g = 1
    /\ g_entry "APS" "TSL" = Some (transpose g).
Proof.
  apply g_to_from_entries_are_rotations; unfold registered; auto.
Defined.

(** X2: the table is consistent along chains: converting from [c] to [b]
    and then from [b] to [a] is the table's own entry from [c] to [a]. *)
Theorem g_to_from_chain :
  forall a b c : string,
    registered a -> registered b -> registered c ->
    exists gab gbc gac : mat3,
      g_entry a b = Some gab /\ g_entry b c = Some gbc
      /\ g_entry a c = Some gac
      /\ matmul gab gbc = gac.
Proof.
  intros a b c Ha Hb Hc.
  exists (rot_x (frame_angle a - frame_angle b)),
         (rot_x (frame_angle b - frame_angle c)),
         (rot_x (frame_angle a - frame_angle c)).
  repeat split; try (now apply g_entry_angle).
  rewrite rot_x_matmul. f_equal. ring.
Qed.

Lemma g_to_from_chain_witness :
  exists gab gbc gac : mat3,
    g_entry "APS" "TSL" = Some gab /\ g_entry "TSL" "XHF" = Some gbc
    /\ g_entry "APS" "XHF" = Some gac
    /\ matmul gab gbc = gac.
Proof.
  apply g_to_from_chain; unfold registered; auto.
Defined.

(** X3: every entry of the table preserves dot products, hence lengths and
    angles, of the vectors it converts. *)
Theorem g_to_from_preserves_dot :
  forall (target current : string) (g : mat3) (u v : vec3),
    g_entry target current = Some g ->
    dot3 (matvec g u) (matvec g v) = dot3 u v
    /\ norm (matvec g u) = norm u.
Proof.
  intros target current g u v Hg.
  destruct (g_entry_registered _ _ _ Hg) as [Ht Hc].
  rewrite (g_entry_angle _ _ Ht Hc) in Hg. injection Hg as <-.
  split; [apply rot_x_isometry |].
  unfold norm. now rewrite rot_x_isometry.
Qed.

Lemma g_to_from_preserves_dot_witness :
  dot3 (matvec R_TSL2APS (1, 2, 3)) (matvec R_TSL2APS (4, 5, 6))
  = dot3 (1, 2, 3) (4, 5, 6)
  /\ norm (matvec R_TSL2APS (1, 2, 3)) = norm (1, 2, 3).
Proof.
  apply (g_to_from_preserves_dot "TSL" "APS"). reflexivity.
Defined.

(** ** [toFrame], lines 161-174, for any binding of the free name *)

Lemma toFrame_bound (g : dict (dict mat3)) (target : string)
    (self : DAXMvoxel) (row : dict mat3) (m : mat3) :
  dict_get g target = Some row ->
  dict_get row (ref_frame self) = Some m ->
  toFrame (Some g) (Some target) self
  = (Ok tt,
     mkVoxel (name self) (ref_frame self) (matvec m (coords self))
             (pattern_image self) (matcols m (scatter_vec self)) (plane self)
             (matmul m (recip_base self)) (peak self) (depth self)
             (lattice_constant self)).
Proof.
  intros Hrow Hm. run_method. unfold dict_mem.
  rewrite Hrow. cbn [negb]. rewrite Hm.
  cbn [ref_frame coords scatter_vec recip_base]. rewrite Hm.
  cbn [ref_frame coords scatter_vec recip_base]. rewrite Hm.
  reflexivity.
Qed.

Lemma toFrame_bound_no_target (g : dict (dict mat3)) (target : string)
    (self : DAXMvoxel) :
  dict_get g target = None ->
  toFrame (Some g) (Some target) self = (Raise PyException, self).
Proof.
  intros Hrow. run_method. unfold dict_mem. now rewrite Hrow.
Qed.

Lemma toFrame_bound_no_current (g : dict (dict mat3)) (target : string)
    (self : DAXMvoxel) (row : dict mat3) :
  dict_get g target = Some row ->
  dict_get row (ref_frame self) = None ->
  toFrame (Some g) (Some target) self
  = (Raise (KeyError (ref_frame self)), self).
Proof.
  intros Hrow Hm. run_method. unfold dict_mem.
  rewrite Hrow. cbn [negb]. now rewrite Hm.
Qed.

(** X4: whatever the free name denotes, a call either raises and leaves the
    voxel exactly as it was, or returns having assigned only [coords],
    [scatter_vec] (same number of columns) and [recip_base]: planes, peaks
    and the other attributes are never touched. *)
Theorem toFrame_all_or_nothing :
  forall (genv : globals) (target : option string) (self : DAXMvoxel),
    (exists e : exn, toFrame genv target self = (Raise e, self))
    \/ (exists (c : vec3) (q : cols3) (b : mat3),
          toFrame genv target self
          = (Ok tt,
             mkVoxel (name self) (ref_frame self) c (pattern_image self)
                     q (plane self) b (peak self) (depth self)
                     (lattice_constant self))
          /\ length q = length (scatter_vec self)).
Proof.
  intros genv target self.
  destruct target as [target |].
  - destruct genv as [g |].
    + destruct (dict_get g target) as [row |] eqn:Hrow.
      * destruct (dict_get row (ref_frame self)) as [m |] eqn:Hm.
        -- right. eexists _, _, _. split.
           ++ now apply (toFrame_bound g target self row m).
           ++ apply length_map.
        -- left. eexists. now apply (toFrame_bound_no_current g _ _ row).
      * left. eexists. now apply toFrame_bound_no_target.
    + left. eexists. reflexivity.
  - right. exists (coords self), (scatter_vec self), (recip_base self).
    split; [| reflexivity]. now destruct self.
Qed.

(** With the name reaching the class table, a registered target and a
    voxel whose own [ref_frame] is not a key of the table, the lookup of
    line 168 raises [KeyError] before anything is assigned. *)
Theorem toFrame_unregistered_current_frame :
  forall (target : string) (self : DAXMvoxel),
    registered target -> ~ registered (ref_frame self) ->
    toFrame class_scope (Some target) self
    = (Raise (KeyError (ref_frame self)), self).
Proof.
  intros target self Ht Hc.
  destruct (dict_get g_to_from target) as [row |] eqn:Hrow.
  - apply (toFrame_bound_no_current g_to_from target self row Hrow).
    destruct (dict_get row (ref_frame self)) as [m |] eqn:Hm; [| reflexivity].
    exfalso. apply Hc.
    apply (proj2 (g_entry_registered target (ref_frame self) m
                    ltac:(unfold g_entry; now rewrite Hrow))).
  - apply dict_mem_registered in Ht. unfold dict_mem in Ht.
    rewrite Hrow in Ht. discriminate Ht.
Qed.

Lemma toFrame_unregistered_current_frame_witness :
  toFrame class_scope (Some "TSL"%string) (voxel_in "LAB" (1, 1, 1))
  = (Raise (KeyError "LAB"), voxel_in "LAB" (1, 1, 1)).
Proof.
  apply (toFrame_unregistered_current_frame "TSL" (voxel_in "LAB" (1, 1, 1))).
  - unfold registered. auto.
  - unfold registered. cbn [ref_frame voxel_in].
    intros [H | [H | H]]; discriminate H.
Defined.

(** ** [scatter_vec0], lines 152-159: shapes and errors *)

(** X5: with [match_measured] the call raises [IndexError] exactly when a
    measured column of near-unit length sits at an index for which q0 has no
    column; otherwise it returns an array with one column per plane. *)
Theorem scatter_vec0_index_error :
  forall self : DAXMvoxel,
    ((exists (j : nat) (q : vec3),
         nth_error (scatter_vec self) j = Some q
         /\ Rabs (norm q - 1) <= 1e-8
         /\ (length (plane self) <= j)%nat) ->
     scatter_vec0 self true = Raise IndexError)
    /\ ((forall (j : nat) (q : vec3),
            nth_error (scatter_vec self) j = Some q ->
            Rabs (norm q - 1) <= 1e-8 ->
            (j < length (plane self))%nat) ->
        exists q0 : cols3,
          scatter_vec0 self true = Ok q0
          /\ length q0 = length (plane self)).
Proof.
  intros self. unfold scatter_vec0.
  set (q0 := matcols (recip_base self) (plane self)).
  assert (Hq0 : length q0 = length (plane self))
    by (unfold q0, matcols; apply length_map).
  split.
  - intros [j [q [Hq [Hunit Hj]]]].
    rewrite (take_cols_out_of_range q0 _ j); [reflexivity | | lia].
    apply where_unit_In. eauto.
  - intros Hin.
    rewrite (take_cols_in_range zeros3 q0).
    + cbn [rbind Ok]. eexists. split; [reflexivity |].
      now rewrite put_cols_length.
    + apply Forall_forall. intros j Hj.
      apply where_unit_In in Hj as [q [Hq Hunit]].
      rewrite Hq0. eauto.
Qed.

Lemma scatter_vec0_index_error_witness :
  scatter_vec0
    unindexed_voxel
    true
  = Raise IndexError
  /\ exists q0 : cols3,
       scatter_vec0 (voxel_in "APS" (1, 1, 1)) true = Ok q0
       /\ length q0 = 2%nat.
Proof.
  split.
  - apply (proj1 (scatter_vec0_index_error
                    unindexed_voxel)).
    exists 0%nat, (1, 0, 0). split; [reflexivity |]. split.
    + rewrite norm_axis_x by lra.
      replace (1 - 1) with 0 by ring. rewrite Rabs_R0. lra.
    + simpl. lia.
  - apply (proj2 (scatter_vec0_index_error (voxel_in "APS" (1, 1, 1)))).
    intros j q Hq _. apply (proj1 (nth_error_Some _ j)).
    cbn [plane voxel_in]. cbn [scatter_vec voxel_in] in Hq.
    destruct j as [| [| j]]; simpl in *; try discriminate; congruence.
Defined.

Lemma where_from_none (s : nat) (mask : list bool) :
  (forall b, In b mask -> b = false) -> where_from s mask = [].
Proof.
  revert s. induction mask as [| b mask IH]; intros s Hall; [reflexivity |].
  simpl. rewrite (Hall b) by now left.
  apply IH. intros b' Hb'. apply Hall. now right.
Qed.

(** X6: when no measured column has near-unit length, [match_measured]
    changes nothing: the result is [recip_base . plane], whatever the
    column counts. *)
Theorem scatter_vec0_no_unit_columns :
  forall self : DAXMvoxel,
    (forall q, In q (scatter_vec self) -> ~ Rabs (norm q - 1) <= 1e-8) ->
    scatter_vec0 self true = Ok (matcols (recip_base self) (plane self)).
Proof.
  intros self Hfar. unfold scatter_vec0, where_.
  rewrite where_from_none; [reflexivity |].
  intros b Hb. apply in_map_iff in Hb as [q [<- Hq]].
  destruct (is_unit_q q) eqn:Hunit; [| reflexivity].
  apply is_unit_q_true_iff in Hunit. now apply Hfar in Hunit.
Qed.

Lemma scatter_vec0_no_unit_columns_witness :
  scatter_vec0 flat_voxel true = Ok (matcols eye3 [(2, 0, 0); (0, 1, 0)]).
Proof.
  apply (scatter_vec0_no_unit_columns flat_voxel).
  cbn [scatter_vec flat_voxel].
  intros q [<- | [<- | []]] Hunit.
  - rewrite norm_axis_x in Hunit by lra.
    rewrite Rabs_pos_eq in Hunit; lra.
  - rewrite norm_3_4_0 in Hunit.
    rewrite Rabs_pos_eq in Hunit; lra.
Defined.

(** ** [deformation_gradientL2], lines 176-191: shapes and exact data *)

Lemma take_cols_raise {A} (a : list A) (idx : list nat) (e : exn) :
  take_cols a idx = Raise e -> e = IndexError.
Proof.
  induction idx as [| j idx IH]; simpl; [discriminate |].
  destruct (nth_error a j); [| intros H; now injection H].
  destruct (take_cols a idx); simpl; [| discriminate].
  intros H. injection H as <-. now apply IH.
Qed.

Lemma scatter_vec0_raise (self : DAXMvoxel) (mm : bool) (e : exn) :
  scatter_vec0 self mm = Raise e -> e = IndexError.
Proof.
  unfold scatter_vec0. destruct mm; [| discriminate].
  destruct (take_cols _ _) eqn:Htake; simpl; [| discriminate].
  intros H. injection H as <-. now apply take_cols_raise in Htake.
Qed.

Lemma scatter_vec0_length (self : DAXMvoxel) (mm : bool) (q0 : cols3) :
  scatter_vec0 self mm = Ok q0 -> length q0 = length (plane self).
Proof.
  unfold scatter_vec0. destruct mm.
  - destruct (take_cols _ _); simpl; [discriminate |].
    intros H. injection H as <-.
    rewrite put_cols_length. apply length_map.
  - intros H. injection H as <-. apply length_map.
Qed.

(** X7: when the measured matrix and the plane matrix differ in their
    number of columns the closed-form solver returns nothing: it raises
    [IndexError] (line 157) or [ValueError] (line 186). *)
Theorem deformation_gradientL2_shape_mismatch :
  forall (lu : lapack) (self : DAXMvoxel),
    length (scatter_vec self) <> length (plane self) ->
    deformation_gradientL2 lu self = Raise IndexError
    \/ deformation_gradientL2 lu self = Raise ValueError.
Proof.
  intros lu self Hne. unfold deformation_gradientL2.
  destruct (scatter_vec0 self true) as [e | q0] eqn:Hq0.
  - left. apply (scatter_vec0_raise self true) in Hq0. now subst.
  - right. apply scatter_vec0_length in Hq0.
    cbn [rbind]. unfold dot_T at 1.
    rewrite Hq0. destruct (Nat.eqb_spec (length (scatter_vec self))
                                        (length (plane self))).
    + contradiction.
    + reflexivity.
Qed.

Lemma deformation_gradientL2_shape_mismatch_witness :
  deformation_gradientL2 exact_pivots
    (mkVoxel None "APS" (0, 0, 0) None [(2, 0, 0)] [] eye3 [(10, 20)] 0 [])
  = Raise IndexError
  \/ deformation_gradientL2 exact_pivots
       (mkVoxel None "APS" (0, 0, 0) None [(2, 0, 0)] [] eye3 [(10, 20)] 0 [])
     = Raise ValueError.
Proof.
  apply deformation_gradientL2_shape_mismatch. simpl. discriminate.
Defined.

Lemma matmul_assoc (a b c : mat3) :
  matmul (matmul a b) c = matmul a (matmul b c).
Proof.
  destruct a as [[[[a0 a1] a2] [[a3 a4] a5]] [[a6 a7] a8]].
  destruct b as [[[[b0 b1] b2] [[b3 b4] b5]] [[b6 b7] b8]].
  destruct c as [[[[c0 c1] c2] [[c3 c4] c5]] [[c6 c7] c8]].
  cbv [matmul transpose dot3]. split_pairs; ring.
Qed.

Lemma matmul_eye3_r (m : mat3) : matmul m eye3 = m.
Proof.
  destruct m as [[[[a b] c] [[d e] f]] [[g h] i]].
  cbv [matmul eye3 transpose dot3]. split_pairs; ring.
Qed.

Lemma transpose_involutive (m : mat3) : transpose (transpose m) = m.
Proof. now destruct m as [[[[a b] c] [[d e] f]] [[g h] i]]. Qed.

Lemma det_matmul (a b : mat3) : det (matmul a b) = det a * det b.
Proof.
  destruct a as [[[[a0 a1] a2] [[a3 a4] a5]] [[a6 a7] a8]].
  destruct b as [[[[b0 b1] b2] [[b3 b4] b5]] [[b6 b7] b8]].
  cbv [matmul transpose dot3 det]. ring.
Qed.

Lemma matmul_madd (f x y : mat3) :
  matmul f (madd x y) = madd (matmul f x) (matmul f y).
Proof.
  destruct f as [[[[a0 a1] a2] [[a3 a4] a5]] [[a6 a7] a8]].
  destruct x as [[[[b0 b1] b2] [[b3 b4] b5]] [[b6 b7] b8]].
  destruct y as [[[[c0 c1] c2] [[c3 c4] c5]] [[c6 c7] c8]].
  cbv [matmul madd vadd transpose dot3]. split_pairs; ring.
Qed.

Lemma matmul_outer (f : mat3) (u v : vec3) :
  matmul f (outer u v) = outer (matvec f u) v.
Proof.
  destruct f as [[[[a0 a1] a2] [[a3 a4] a5]] [[a6 a7] a8]].
  destruct u as [[u0 u1] u2], v as [[v0 v1] v2].
  cbv [matmul outer matvec vscale transpose dot3]. split_pairs; ring.
Qed.

Lemma matmul_mzero (f : mat3) : matmul f mzero = mzero.
Proof.
  destruct f as [[[[a0 a1] a2] [[a3 a4] a5]] [[a6 a7] a8]].
  cbv [matmul mzero zeros3 transpose dot3]. split_pairs; ring.
Qed.

(** (F . a) . b^t = F . (a . b^t) *)
Lemma dot_T_matcols (f : mat3) (a b : cols3) (m : mat3) :
  dot_T a b = Ok m -> dot_T (matcols f a) b = Ok (matmul f m).
Proof.
  intros Hm. pose proof (dot_T_same_length _ _ _ Hm) as Hlen.
  unfold dot_T in *. unfold matcols at 1. rewrite length_map.
  rewrite Hlen, Nat.eqb_refl in *. injection Hm as <-. f_equal.
  clear Hlen. revert b. induction a as [| u a IH]; intros b.
  - cbn [matcols map combine fold_right]. now rewrite matmul_mzero.
  - destruct b as [| v b].
    + cbn [matcols map combine fold_right]. now rewrite matmul_mzero.
    + cbn [matcols map combine fold_right fst snd].
      fold (matcols f a). rewrite IH, matmul_madd, matmul_outer.
      reflexivity.
Qed.

(** X8: exact data are recovered exactly.  When every measured column is
    Fstar applied to the corresponding strain-free column, with Fstar and
    B = q0 . q0^t invertible, the solver returns F = Fstar^(-t): the
    transpose of the inverse of Fstar. *)
Theorem deformation_gradientL2_recovers :
  forall (lu : lapack) (self : DAXMvoxel) (q0 : cols3) (Fstar B : mat3),
    scatter_vec0 self true = Ok q0 ->
    scatter_vec self = matcols Fstar q0 ->
    dot_T q0 q0 = Ok B ->
    det B <> 0 ->
    det Fstar <> 0 ->
    exists Finv : mat3,
      matmul Fstar Finv = eye3 /\ matmul Finv Fstar = eye3
      /\ deformation_gradientL2 lu self = Ok (transpose Finv).
Proof.
  intros lu self q0 Fstar B Hq0 Hq HB HdetB HdetF.
  pose proof (inv_nonsingular lu Fstar HdetF) as HFinv.
  destruct (inv_correct _ _ _ HdetF HFinv) as [HFr HFl].
  set (Finv := mscale (/ det Fstar) (adjugate Fstar)) in *.
  exists Finv. split; [exact HFr |]. split; [exact HFl |].
  assert (HA : dot_T (scatter_vec self) q0 = Ok (matmul Fstar B))
    by (rewrite Hq; now apply dot_T_matcols).
  assert (HdetA : det (matmul Fstar B) <> 0).
  { rewrite det_matmul. now apply Rmult_integral_contrapositive. }
  pose proof (inv_nonsingular lu _ HdetA) as HAinv.
  destruct (inv_correct _ _ _ HdetA HAinv) as [HAr _].
  set (Ainv := mscale (/ det (matmul Fstar B)) (adjugate (matmul Fstar B)))
    in *.
  rewrite (deformation_gradientL2_steps _ _ _ _ _ Hq0 HA HB), HAinv.
  cbn [rbind Ok]. rewrite <- transpose_matmul. do 2 f_equal.
  rewrite <- (matmul_eye3 (matmul B Ainv)), <- HFl.
  rewrite (matmul_assoc Finv Fstar), <- (matmul_assoc Fstar B Ainv), HAr.
  apply matmul_eye3_r.
Qed.

Lemma deformation_gradientL2_recovers_witness :
  exists Finv : mat3,
    matmul ((1, 3, 0), (0, 4, 0), (0, 0, 2)) Finv = eye3
    /\ matmul Finv ((1, 3, 0), (0, 4, 0), (0, 0, 2)) = eye3
    /\ deformation_gradientL2 exact_pivots sheared_voxel
       = Ok (transpose Finv).
Proof.
  apply (deformation_gradientL2_recovers exact_pivots sheared_voxel
           [(2, 0, 0); (0, 1, 0); (0, 0, 1)]
           ((1, 3, 0), (0, 4, 0), (0, 0, 2)) sheared_B).
  - apply sheared_q0.
  - cbv [sheared_voxel scatter_vec matcols map matvec dot3].
    repeat (apply f_equal2; [split_pairs; ring |]). reflexivity.
  - apply sheared_B_value.
  - cbv [det sheared_B]. lra.
  - cbv [det]. lra.
Defined.

(** X9: when A = q . q0^t is invertible, the matrix F the solver returns
    solves the normal equations of the fit: F^t . A = B, that is
    Fstar . B = A for Fstar = F^(-t). *)
Theorem deformation_gradientL2_normal_equations :
  forall (lu : lapack) (self : DAXMvoxel) (q0 : cols3) (A B : mat3),
    scatter_vec0 self true = Ok q0 ->
    dot_T (scatter_vec self) q0 = Ok A ->
    dot_T q0 q0 = Ok B ->
    det A <> 0 ->
    exists F : mat3,
      deformation_gradientL2 lu self = Ok F
      /\ matmul (transpose F) A = B.
Proof.
  intros lu self q0 A B Hq0 HA HB Hdet.
  pose proof (inv_nonsingular lu A Hdet) as Hinv.
  destruct (inv_correct _ _ _ Hdet Hinv) as [_ Hl].
  rewrite (deformation_gradientL2_steps _ _ _ _ _ Hq0 HA HB), Hinv.
  cbn [rbind Ok]. eexists. split; [reflexivity |].
  rewrite <- transpose_matmul, transpose_involutive.
  now rewrite matmul_assoc, Hl, matmul_eye3_r.
Qed.

Lemma deformation_gradientL2_normal_equations_witness :
  exists F : mat3,
    deformation_gradientL2 exact_pivots sheared_voxel = Ok F
    /\ matmul (transpose F) sheared_A = sheared_B.
Proof.
  apply (deformation_gradientL2_normal_equations exact_pivots sheared_voxel
           [(2, 0, 0); (0, 1, 0); (0, 0, 1)]).
  - apply sheared_q0.
  - apply sheared_A_value.
  - apply sheared_B_value.
  - cbv [det sheared_A]. lra.
Defined.

(** ** [pair_scattervec_plane], lines 254-271: shapes, pairs and errors *)

Lemma argmin_bound (l : list R) (k : nat) :
  argmin l = Some k -> (k < length l)%nat.
Proof.
  intros H. destruct (argmin_least _ _ H) as [m [Hm _]].
  apply nth_error_Some. congruence.
Qed.

Lemma argmin_None (l : list R) : argmin l = None -> l = [].
Proof. destruct l; [reflexivity | discriminate]. Qed.

Lemma put_col_nth_error_other {A} (j : nat) (c : A) (a : list A) (i : nat) :
  i <> j -> nth_error (put_col j c a) i = nth_error a i.
Proof.
  revert j i. induction a as [| x a IH]; intros j i Hne.
  - now destruct j.
  - destruct j as [| j], i as [| i]; simpl; auto; try contradiction.
Qed.

Lemma pair_step_choice (self : DAXMvoxel) (acc acc' : cols3 * cols2)
    (i : nat) :
  pair_step self (map normalize (scatter_vec self)) acc i = Ok acc' ->
  exists (idx : nat) (q : vec3) (pk : vec2),
    least_cosine_choice self i idx q pk
    /\ acc' = (put_col i q (fst acc), put_col i pk (snd acc)).
Proof.
  intros H. destruct (pair_step_least_cosine _ _ _ _ H)
    as [idx [q [pk [Hq [Hpk [Hacc Hleast]]]]]].
  exists idx, q, pk. unfold least_cosine_choice. auto.
Qed.

Lemma pair_step_raise (self : DAXMvoxel) (acc : cols3 * cols2) (i : nat)
    (e : exn) :
  pair_step self (map normalize (scatter_vec self)) acc i = Raise e ->
  (e = ValueError /\ scatter_vec self = [])
  \/ (e = IndexError /\ (length (peak self) < length (scatter_vec self))%nat).
Proof.
  destruct acc as [new_scatter_vec new_peak]. unfold pair_step.
  destruct (argmin _) as [idx |] eqn:Harg.
  - apply argmin_bound in Harg. rewrite !length_map in Harg.
    destruct (nth_error (scatter_vec self) idx) as [q |] eqn:Hq.
    + destruct (nth_error (peak self) idx) as [pk |] eqn:Hpk; [discriminate |].
      intros H. injection H as <-. right. split; [reflexivity |].
      apply nth_error_None in Hpk. lia.
    + apply nth_error_None in Hq. lia.
  - intros H. injection H as <-. left. split; [reflexivity |].
    apply argmin_None in Harg.
    now apply map_eq_nil in Harg; apply map_eq_nil in Harg.
Qed.

Lemma pair_step_returns (self : DAXMvoxel) (acc : cols3 * cols2) (i : nat) :
  scatter_vec self <> [] ->
  (length (scatter_vec self) <= length (peak self))%nat ->
  exists acc', pair_step self (map normalize (scatter_vec self)) acc i
               = Ok acc'.
Proof.
  intros Hne Hlen.
  destruct (pair_step self (map normalize (scatter_vec self)) acc i)
    as [e | acc'] eqn:H; [| now exists acc'].
  apply pair_step_raise in H as [[_ H] | [_ H]]; [contradiction | lia].
Qed.

Lemma pair_loop_raise (self : DAXMvoxel) (range : list nat)
    (acc : cols3 * cols2) (e : exn) :
  pair_loop self (map normalize (scatter_vec self)) range acc = Raise e ->
  (e = ValueError /\ scatter_vec self = [])
  \/ (e = IndexError /\ (length (peak self) < length (scatter_vec self))%nat).
Proof.
  revert acc. induction range as [| i range IH]; intros acc; simpl.
  - discriminate.
  - destruct (pair_step _ _ acc i) as [e' | acc'] eqn:Hstep; cbn [rbind].
    + intros H. injection H as <-. now apply pair_step_raise in Hstep.
    + apply IH.
Qed.

Lemma pair_loop_returns (self : DAXMvoxel) (range : list nat)
    (acc : cols3 * cols2) :
  scatter_vec self <> [] ->
  (length (scatter_vec self) <= length (peak self))%nat ->
  exists acc', pair_loop self (map normalize (scatter_vec self)) range acc
               = Ok acc'.
Proof.
  intros Hne Hlen. revert acc.
  induction range as [| i range IH]; intros acc; simpl.
  - now exists acc.
  - destruct (pair_step_returns self acc i Hne Hlen) as [acc' ->].
    cbn [rbind]. apply IH.
Qed.

(** The arrays the loop has filled: same shapes as at the start, the
    columns outside the range untouched, each column of the range holding
    the measured column and peak chosen for it. *)
Lemma pair_loop_filled (self : DAXMvoxel) (range : list nat) :
  forall acc acc' : cols3 * cols2,
    pair_loop self (map normalize (scatter_vec self)) range acc = Ok acc' ->
    NoDup range ->
    length (fst acc') = length (fst acc)
    /\ length (snd acc') = length (snd acc)
    /\ (forall i, ~ In i range ->
          nth_error (fst acc') i = nth_error (fst acc) i
          /\ nth_error (snd acc') i = nth_error (snd acc) i)
    /\ (forall i, In i range ->
          (i < length (fst acc))%nat -> (i < length (snd acc))%nat ->
          exists (idx : nat) (q : vec3) (pk : vec2),
            least_cosine_choice self i idx q pk
            /\ nth_error (fst acc') i = Some q
            /\ nth_error (snd acc') i = Some pk).
Proof.
  induction range as [| i range IH]; intros acc acc' Hloop Hnd.
  - simpl in Hloop. injection Hloop as <-.
    repeat split; auto. intros i [].
  - simpl in Hloop.
    destruct (pair_step _ _ acc i) as [e | acc1] eqn:Hstep;
      cbn [rbind] in Hloop; [discriminate |].
    apply pair_step_choice in Hstep as [idx [q [pk [Hchoice ->]]]].
    inversion Hnd as [| ? ? Hnotin Hnd']; subst.
    destruct (IH _ _ Hloop Hnd') as [Hl1 [Hl2 [Hout Hin]]].
    cbn [fst snd] in *.
    rewrite (put_col_length i q) in *. rewrite (put_col_length i pk) in *.
    split; [exact Hl1 |]. split; [exact Hl2 |]. split.
    + intros j Hj. destruct (Hout j) as [H1 H2].
      { intros Hjr. apply Hj. now right. }
      assert (Hne : j <> i) by (intros ->; apply Hj; now left).
      now rewrite H1, H2, !put_col_nth_error_other.
    + intros j [<- | Hj] Hj1 Hj2.
      * destruct (Hout i Hnotin) as [H1 H2].
        exists idx, q, pk. split; [exact Hchoice |].
        rewrite H1, H2.
        destruct (nth_error (fst acc) i) as [x |] eqn:Hx;
          [| apply nth_error_None in Hx; lia].
        destruct (nth_error (snd acc) i) as [y |] eqn:Hy;
          [| apply nth_error_None in Hy; lia].
        rewrite (put_col_nth_error i q _ i x Hx),
          (put_col_nth_error i pk _ i y Hy), Nat.eqb_refl.
        auto.
      * apply (Hin j Hj); assumption.
Qed.

Lemma pair_scattervec_plane_unfold (self : DAXMvoxel) :
  pair_scattervec_plane self
  = match pair_loop self (map normalize (scatter_vec self))
            (seq 0 (length (plane self)))
            (map (fun _ => zeros3) (plane self),
             repeat zeros2 (length (plane self))) with
    | inl e => (Raise e, self)
    | inr new =>
        (Ok tt,
         mkVoxel (name self) (ref_frame self) (coords self)
                 (pattern_image self) (fst new) (plane self)
                 (recip_base self) (snd new) (depth self)
                 (lattice_constant self))
    end.
Proof.
  unfold pair_scattervec_plane, bind, get_self, lift, Ok.
  now destruct (pair_loop _ _ _ _).
Qed.

(** X10: with at least one measured vector and a peak for every measured
    vector the pairing returns; [scatter_vec] and [peak] then have one
    column per plane and no other attribute has changed. *)
Theorem pair_scattervec_plane_returns :
  forall self : DAXMvoxel,
    scatter_vec self <> [] ->
    (length (scatter_vec self) <= length (peak self))%nat ->
    exists (q : cols3) (pk : cols2),
      pair_scattervec_plane self
      = (Ok tt,
         mkVoxel (name self) (ref_frame self) (coords self)
                 (pattern_image self) q (plane self) (recip_base self) pk
                 (depth self) (lattice_constant self))
      /\ length q = length (plane self)
      /\ length pk = length (plane self).
Proof.
  intros self Hne Hlen. rewrite pair_scattervec_plane_unfold.
  destruct (pair_loop_returns self (seq 0 (length (plane self)))
              (map (fun _ => zeros3) (plane self),
               repeat zeros2 (length (plane self))) Hne Hlen)
    as [new Hloop].
  rewrite Hloop. exists (fst new), (snd new). split; [reflexivity |].
  destruct (pair_loop_filled _ _ _ _ Hloop (seq_NoDup _ _))
    as [Hl1 [Hl2 _]].
  cbn [fst snd] in Hl1, Hl2.
  now rewrite Hl1, Hl2, length_map, repeat_length.
Qed.

Lemma pair_scattervec_plane_returns_witness :
  exists (q : cols3) (pk : cols2),
    pair_scattervec_plane sheared_voxel
    = (Ok tt,
       mkVoxel (Some "Cloud"%string) "APS" (1, 1, 1) (Some "hidden"%string)
               q [(2, 0, 0); (0, 1, 0); (0, 0, 1)] eye3 pk 0 [])
    /\ length q = 3%nat /\ length pk = 3%nat.
Proof.
  apply (pair_scattervec_plane_returns sheared_voxel).
  - discriminate.
  - simpl. lia.
Defined.

(** X11: after a pairing that returned, on a voxel with no zero measured
    column and no zero plane direction (so that no cosine is 0/0), every
    plane column [i] carries the peak recorded at an index whose measured
    column is one of least cosine to the plane's direction
    normalize(recip_base . plane[:,i]) among all measured columns. *)
Theorem pair_scattervec_plane_pairs :
  forall (self self' : DAXMvoxel),
    (forall q, In q (scatter_vec self) -> norm q <> 0) ->
    (forall p, In p (plane self) -> norm (matvec (recip_base self) p) <> 0) ->
    pair_scattervec_plane self = (Ok tt, self') ->
    forall i : nat,
      (i < length (plane self))%nat ->
      exists (idx : nat) (q : vec3) (pk : vec2),
        least_cosine_choice self i idx q pk
        /\ nth_error (peak self') i = Some pk.
Proof.
  intros self self' _ _ Hpair i Hi.
  rewrite pair_scattervec_plane_unfold in Hpair.
  destruct (pair_loop _ _ _ _) as [e | new] eqn:Hloop; [discriminate |].
  injection Hpair as <-. cbn [scatter_vec peak].
  destruct (pair_loop_filled _ _ _ _ Hloop (seq_NoDup _ _))
    as [_ [_ [_ Hin]]].
  destruct (Hin i) as [idx [q [pk [Hchoice [_ Hpk]]]]].
  - apply in_seq. lia.
  - cbn [fst]. now rewrite length_map.
  - cbn [snd]. now rewrite repeat_length.
  - exists idx, q, pk. auto.
Qed.

Lemma pair_scattervec_plane_pairs_witness :
  exists (idx : nat) (q : vec3) (pk : vec2),
    least_cosine_choice (voxel_in "APS" (1, 1, 1)) 0 idx q pk
    /\ nth_error [(30, 40); (10, 20)] 0 = Some pk.
Proof.
  apply (pair_scattervec_plane_pairs (voxel_in "APS" (1, 1, 1))
           (mkVoxel (Some "Cloud"%string) "APS" (1, 1, 1)
                    (Some "hidden"%string)
                    [(0, 2, 0); (1, 0, 0)] [(1, 0, 0); (0, 1, 0)] eye3
                    [(30, 40); (10, 20)] 0 [])).
  - cbn [scatter_vec voxel_in]. intros q [<- | [<- | []]].
    + rewrite norm_axis_x; lra.
    + rewrite norm_axis_y; lra.
  - cbn [plane recip_base voxel_in]. intros p [<- | [<- | []]];
      rewrite matvec_eye3.
    + rewrite norm_axis_x; lra.
    + rewrite norm_axis_y; lra.
  - rewrite pair_scattervec_plane_unfold.
    cbn [voxel_in plane scatter_vec map length seq repeat pair_loop].
    rewrite normalize_axis_x, (normalize_axis_y 2) by lra.
    change (pair_step _ [(1, 0, 0); (0, 1, 0)] ?acc 0)
      with (pair_step (voxel_in "APS" (1, 1, 1)) [(1, 0, 0); (0, 1, 0)] acc 0).
    rewrite pair_step_first. cbn [rbind Ok fst snd put_col].
    change (pair_step _ [(1, 0, 0); (0, 1, 0)] ?acc 1)
      with (pair_step (voxel_in "APS" (1, 1, 1)) [(1, 0, 0); (0, 1, 0)] acc 1).
    rewrite pair_step_second. reflexivity.
  - simpl. lia.
Defined.

(** X12: a pairing that raises has assigned nothing, and it raises only in
    two ways: [ValueError] when there is no measured vector at all (argmin
    of an empty array, line 265), [IndexError] when [peak] has fewer
    columns than [scatter_vec] (line 267). *)
Theorem pair_scattervec_plane_failure :
  forall (self self' : DAXMvoxel) (e : exn),
    pair_scattervec_plane self = (Raise e, self') ->
    self' = self
    /\ ((e = ValueError /\ scatter_vec self = [] /\ plane self <> [])
        \/ (e = IndexError
            /\ (length (peak self) < length (scatter_vec self))%nat)).
Proof.
  intros self self' e Hpair. rewrite pair_scattervec_plane_unfold in Hpair.
  destruct (pair_loop _ _ _ _) as [e' | new] eqn:Hloop; [| discriminate].
  injection Hpair as <- <-. split; [reflexivity |].
  destruct (plane self) as [| p ps] eqn:Hplane.
  - simpl in Hloop. discriminate.
  - apply pair_loop_raise in Hloop as [[-> Hsv] | [-> Hpk]].
    + left. repeat split; auto. discriminate.
    + right. auto.
Qed.

Lemma pair_scattervec_plane_failure_witness :
  unmeasured_voxel
  = unmeasured_voxel
  /\ ((ValueError = ValueError
       /\ scatter_vec
            unmeasured_voxel
          = []
       /\ plane unmeasured_voxel
          <> [])
      \/ (ValueError = IndexError
          /\ (length
                (peak
                   unmeasured_voxel)
              < length
                  (scatter_vec
                     unmeasured_voxel))%nat)).
Proof.
  apply (pair_scattervec_plane_failure
           unmeasured_voxel).
  reflexivity.
Defined.

(** X13: the empty cases.  Without measured vectors and with at least one
    plane the pairing raises [ValueError] and changes nothing; without
    planes it returns and leaves [scatter_vec] and [peak] empty, whatever
    they held. *)
Theorem pair_scattervec_plane_empty :
  forall self : DAXMvoxel,
    (scatter_vec self = [] -> plane self <> [] ->
     pair_scattervec_plane self = (Raise ValueError, self))
    /\ (plane self = [] ->
        pair_scattervec_plane self
        = (Ok tt,
           mkVoxel (name self) (ref_frame self) (coords self)
                   (pattern_image self) [] [] (recip_base self) []
                   (depth self) (lattice_constant self))).
Proof.
  intros self. split.
  - intros Hsv Hpl. rewrite pair_scattervec_plane_unfold.
    destruct (plane self) as [| p ps]; [contradiction |].
    rewrite Hsv. reflexivity.
  - intros Hpl. rewrite pair_scattervec_plane_unfold, Hpl. reflexivity.
Qed.

Lemma pair_scattervec_plane_empty_witness :
  pair_scattervec_plane
    unmeasured_voxel
  = (Raise ValueError,
     unmeasured_voxel)
  /\ pair_scattervec_plane
       unindexed_voxel
     = (Ok tt, mkVoxel None "APS" (0, 0, 0) None [] [] eye3 [] 0 []).
Proof.
  split.
  - apply (proj1 (pair_scattervec_plane_empty
                    unmeasured_voxel)).
    + reflexivity.
    + discriminate.
  - apply (proj2 (pair_scattervec_plane_empty
                    unindexed_voxel)).
    reflexivity.
Defined.

(** ** [objectiveDante] and [constraint], lines 202-235 *)

Lemma vsub_self_sum_sq (l : cols3) :
  fold_right Rplus 0
    (map sum_sq3 (map (fun ab => vsub (fst ab) (snd ab)) (combine l l))) = 0.
Proof.
  induction l as [| [[a b] c] l IH]; [reflexivity |].
  cbn [combine map fold_right fst snd]. rewrite IH.
  cbv [vsub sum_sq3 dot3]. ring.
Qed.

Lemma log_ratio_self (l : cols3) :
  (forall v, In v l -> norm v <> 0) ->
  fold_right Rplus 0
    (map (fun r => Rsqr (ln r))
         (map (fun ev => norm (fst ev) / norm (snd ev)) (combine l l))) = 0.
Proof.
  induction l as [| v l IH]; intros Hnz; [reflexivity |].
  cbn [combine map fold_right fst snd].
  rewrite IH by (intros w Hw; apply Hnz; now right).
  replace (norm v / norm v) with 1 by (field; apply Hnz; now left).
  rewrite ln_1, Rsqr_0. ring.
Qed.

(** X14: the objective vanishes at an exact fit.  When the measured columns
    are exactly (I + Delta) applied to the strain-free columns, none of
    them the zero vector, [objectiveDante] at Delta is 0: no angular and no
    length misfit. *)
Theorem objectiveDante_zero_at_exact_fit :
  forall (f : list R) (d : mat3) (vec0 : cols3),
    reshape33 f = Ok d ->
    (forall v, In v (matcols (madd eye3 d) vec0) -> norm v <> 0) ->
    objectiveDante f vec0 (matcols (madd eye3 d) vec0) = Ok 0.
Proof.
  intros f d vec0 Hd Hnz. unfold objectiveDante.
  rewrite Hd. cbn [rbind Ok].
  set (est := matcols (madd eye3 d) vec0) in *.
  unfold broadcast_cols. rewrite Nat.eqb_refl. cbn [rbind Ok].
  rewrite vsub_self_sum_sq, sqrt_0.
  set (idx := where_ (map is_full_q est)).
  assert (Hidx : Forall (fun j => (j < length est)%nat) idx).
  { eapply Forall_impl; [| apply (where_from_bound 0)].
    simpl. intros j Hj. now rewrite length_map in Hj. }
  rewrite (take_cols_in_range zeros3 est idx Hidx). cbn [rbind Ok].
  rewrite log_ratio_self, sqrt_0.
  - f_equal. ring.
  - intros v Hv. apply in_map_iff in Hv as [j [<- Hj]].
    apply Hnz, nth_In. now apply (proj1 (Forall_forall _ _) Hidx).
Qed.

Lemma objectiveDante_zero_at_exact_fit_witness :
  objectiveDante (repeat 0 9) [(2, 0, 0)]
    (matcols (madd eye3 ((0, 0, 0), (0, 0, 0), (0, 0, 0))) [(2, 0, 0)])
  = Ok 0.
Proof.
  apply (objectiveDante_zero_at_exact_fit (repeat 0 9)
           ((0, 0, 0), (0, 0, 0), (0, 0, 0)) [(2, 0, 0)]).
  - reflexivity.
  - intros v [<- | []].
    replace (matvec (madd eye3 ((0, 0, 0), (0, 0, 0), (0, 0, 0))) (2, 0, 0))
      with (2, 0, 0)
      by (cbv [matvec madd vadd eye3 dot3]; split_pairs; ring).
    rewrite norm_axis_x; lra.
Defined.

Lemma Rabs_le_sum (x : list R) (a : R) :
  In a x -> Rabs a <= fold_right Rplus 0 (map Rabs x).
Proof.
  induction x as [| b x IH]; intros Hin; [contradiction |].
  cbn [map fold_right].
  assert (Hsum : 0 <= fold_right Rplus 0 (map Rabs x)).
  { clear. induction x as [| c x IH]; cbn [map fold_right]; [lra |].
    pose proof (Rabs_pos c). lra. }
  destruct Hin as [-> | Hin].
  - lra.
  - specialize (IH Hin). pose proof (Rabs_pos b). lra.
Qed.

(** X15: a parameter vector that satisfies the inequality constraint has
    every entry bounded in absolute value by len(x) * eps. *)
Theorem constraint_bounds_entries :
  forall (x : list R) (eps a : R),
    0 <= constraint x eps -> In a x -> Rabs a <= INR (length x) * eps.
Proof.
  intros x eps a Hc Hin. unfold constraint in Hc.
  pose proof (Rabs_le_sum x a Hin). lra.
Qed.

Lemma constraint_bounds_entries_witness :
  Rabs (- (2)) <= INR (length [1; - (2)]) * 2.
Proof.
  apply (constraint_bounds_entries [1; - (2)] 2 (- (2))).
  - unfold constraint. cbn [length map fold_right INR].
    rewrite Rabs_Ropp, (Rabs_pos_eq 1), (Rabs_pos_eq 2) by lra. lra.
  - right. now left.
Defined.

(** ** The closed-form solver under a change of frame *)

Lemma dot3_matvec (g : mat3) (u v : vec3) :
  dot3 (matvec g u) (matvec g v)
  = dot3 u (matvec (matmul (transpose g) g) v).
Proof.
  destruct g as [[[[a b] c] [[d e] f]] [[g h] i]].
  destruct u as [[u0 u1] u2], v as [[v0 v1] v2].
  cbv [matvec matmul transpose dot3]. ring.
Qed.

Lemma orthogonal_dot3 (g : mat3) (u v : vec3) :
  matmul (transpose g) g = eye3 ->
  dot3 (matvec g u) (matvec g v) = dot3 u v.
Proof.
  intros Hg. now rewrite dot3_matvec, Hg, matvec_eye3.
Qed.

Lemma orthogonal_norm (g : mat3) (u : vec3) :
  matmul (transpose g) g = eye3 -> norm (matvec g u) = norm u.
Proof.
  intros Hg. unfold norm. now rewrite orthogonal_dot3.
Qed.

Lemma matvec_vdiv (g : mat3) (v : vec3) (k : R) :
  matvec g (vdiv v k) = vdiv (matvec g v) k.
Proof.
  destruct g as [[[[a b] c] [[d e] f]] [[g h] i]], v as [[v0 v1] v2].
  cbv [matvec vdiv dot3]. unfold Rdiv. split_pairs; ring.
Qed.

Lemma orthogonal_normalize (g : mat3) (v : vec3) :
  matmul (transpose g) g = eye3 ->
  normalize (matvec g v) = matvec g (normalize v).
Proof.
  intros Hg. unfold normalize.
  now rewrite orthogonal_norm, matvec_vdiv.
Qed.

Lemma matvec_matmul (g m : mat3) (v : vec3) :
  matvec (matmul g m) v = matvec g (matvec m v).
Proof.
  destruct g as [[[[a0 a1] a2] [[a3 a4] a5]] [[a6 a7] a8]].
  destruct m as [[[[b0 b1] b2] [[b3 b4] b5]] [[b6 b7] b8]].
  destruct v as [[v0 v1] v2].
  cbv [matvec matmul transpose dot3]. split_pairs; ring.
Qed.

Lemma take_cols_map {A B} (h : A -> B) (a : list A) (idx : list nat) :
  take_cols (map h a) idx
  = match take_cols a idx with
    | inl e => inl e
    | inr picked => inr (map h picked)
    end.
Proof.
  induction idx as [| j idx IH]; simpl; [reflexivity |].
  rewrite nth_error_map. destruct (nth_error a j); simpl; [| reflexivity].
  rewrite IH. now destruct (take_cols a idx).
Qed.

Lemma put_col_map {A B} (h : A -> B) (j : nat) (c : A) (a : list A) :
  put_col j (h c) (map h a) = map h (put_col j c a).
Proof.
  revert j. induction a as [| x a IH]; intros [| j]; simpl; auto.
  now rewrite IH.
Qed.

Lemma put_cols_map {A B} (h : A -> B) (idx : list nat) (vals : list A)
    (a : list A) :
  put_cols idx (map h vals) (map h a) = map h (put_cols idx vals a).
Proof.
  revert vals a. induction idx as [| j idx IH]; intros vals a; simpl.
  - reflexivity.
  - destruct vals as [| c vals]; simpl; [reflexivity |].
    now rewrite put_col_map, IH.
Qed.

Lemma scatter_vec0_rotated (g : mat3) (self : DAXMvoxel) (q0 : cols3) :
  matmul (transpose g) g = eye3 ->
  scatter_vec0 self true = Ok q0 ->
  scatter_vec0 (rotated g self) true = Ok (matcols g q0).
Proof.
  intros Hg. unfold scatter_vec0.
  cbn [rotated recip_base plane scatter_vec].
  assert (Hmask : map is_unit_q (matcols g (scatter_vec self))
                  = map is_unit_q (scatter_vec self)).
  { unfold matcols. rewrite map_map. apply map_ext. intros q.
    unfold is_unit_q. now rewrite orthogonal_norm. }
  assert (Hbase : matcols (matmul g (recip_base self)) (plane self)
                  = map (matvec g) (matcols (recip_base self) (plane self))).
  { unfold matcols. rewrite map_map. apply map_ext. intros p.
    apply matvec_matmul. }
  rewrite Hmask, Hbase, take_cols_map.
  destruct (take_cols _ _) as [e | picked]; cbn [rbind Ok]; [discriminate |].
  intros H. injection H as <-. f_equal.
  rewrite map_map.
  rewrite (map_ext (fun x => normalize (matvec g x))
                   (fun x => matvec g (normalize x)))
    by (intros x; now apply orthogonal_normalize).
  rewrite <- (map_map normalize (matvec g)).
  apply put_cols_map.
Qed.

Lemma matmul_madd_l (x y f : mat3) :
  matmul (madd x y) f = madd (matmul x f) (matmul y f).
Proof.
  destruct f as [[[[a0 a1] a2] [[a3 a4] a5]] [[a6 a7] a8]].
  destruct x as [[[[b0 b1] b2] [[b3 b4] b5]] [[b6 b7] b8]].
  destruct y as [[[[c0 c1] c2] [[c3 c4] c5]] [[c6 c7] c8]].
  cbv [matmul madd vadd transpose dot3]. split_pairs; ring.
Qed.

Lemma outer_matvec_r (g : mat3) (u v : vec3) :
  outer u (matvec g v) = matmul (outer u v) (transpose g).
Proof.
  destruct g as [[[[a0 a1] a2] [[a3 a4] a5]] [[a6 a7] a8]].
  destruct u as [[u0 u1] u2], v as [[v0 v1] v2].
  cbv [matmul outer matvec vscale transpose dot3]. split_pairs; ring.
Qed.

Lemma mzero_matmul (f : mat3) : matmul mzero f = mzero.
Proof.
  destruct f as [[[[a0 a1] a2] [[a3 a4] a5]] [[a6 a7] a8]].
  cbv [matmul mzero zeros3 transpose dot3]. split_pairs; ring.
Qed.

(** a . (g . b)^t = (a . b^t) . g^t *)
Lemma dot_T_matcols_r (g : mat3) (a b : cols3) (m : mat3) :
  dot_T a b = Ok m -> dot_T a (matcols g b) = Ok (matmul m (transpose g)).
Proof.
  intros Hm. pose proof (dot_T_same_length _ _ _ Hm) as Hlen.
  unfold dot_T in *. unfold matcols at 1. rewrite length_map.
  rewrite Hlen, Nat.eqb_refl in *. injection Hm as <-. f_equal.
  clear Hlen. revert b. induction a as [| u a IH]; intros b.
  - cbn [combine fold_right]. now rewrite mzero_matmul.
  - destruct b as [| v b].
    + cbn [matcols map combine fold_right]. now rewrite mzero_matmul.
    + cbn [matcols map combine fold_right fst snd].
      fold (matcols g b). rewrite IH, matmul_madd_l, outer_matvec_r.
      reflexivity.
Qed.

(** A left inverse and a right inverse of the same matrix coincide. *)
Lemma inverse_unique (x y z : mat3) :
  matmul z x = eye3 -> matmul x y = eye3 -> z = y.
Proof.
  intros Hl Hxy.
  rewrite <- (matmul_eye3_r z), <- Hxy, <- matmul_assoc, Hl.
  apply matmul_eye3.
Qed.

Lemma det_eye3 : det eye3 = 1.
Proof. cbv [det eye3]. ring. Qed.

Lemma orthogonal_right (g : mat3) :
  matmul (transpose g) g = eye3 -> matmul g (transpose g) = eye3.
Proof.
  intros Hg.
  assert (Hdet : det g <> 0).
  { intros H0. pose proof (f_equal det Hg) as Hd.
    rewrite det_matmul, det_eye3, H0 in Hd. lra. }
  pose proof (inv_nonsingular exact_pivots g Hdet) as Hinv.
  destruct (inv_correct _ _ _ Hdet Hinv) as [Hr Hl].
  set (gi := mscale (/ det g) (adjugate g)) in *.
  assert (Heq : transpose g = gi).
  { rewrite <- (matmul_eye3_r (transpose g)), <- Hr, <- matmul_assoc, Hg.
    apply matmul_eye3. }
  now rewrite Heq.
Qed.

Lemma conj_transpose (g x : mat3) :
  transpose (matmul (matmul g x) (transpose g))
  = matmul (matmul g (transpose x)) (transpose g).
Proof.
  now rewrite !transpose_matmul, transpose_involutive, matmul_assoc.
Qed.

Lemma conj_matmul (g x y : mat3) :
  matmul (transpose g) g = eye3 ->
  matmul (matmul (matmul g x) (transpose g))
         (matmul (matmul g y) (transpose g))
  = matmul (matmul g (matmul x y)) (transpose g).
Proof.
  intros Hg.
  rewrite (matmul_assoc (matmul g x) (transpose g)).
  rewrite <- (matmul_assoc (transpose g) (matmul g y)).
  rewrite <- (matmul_assoc (transpose g) g y), Hg, matmul_eye3.
  now rewrite <- !matmul_assoc.
Qed.

(** X16: the deformation gradient transforms as a tensor.  On a voxel
    whose A = q . q0^t is invertible, rotating the measured vectors and the
    reciprocal basis by an orthogonal [g] (what a frame conversion assigns)
    turns the solver's result F into g . F . g^t. *)
Theorem deformation_gradientL2_rotated :
  forall (lu : lapack) (g : mat3) (self : DAXMvoxel) (q0 : cols3) (A : mat3),
    matmul (transpose g) g = eye3 ->
    scatter_vec0 self true = Ok q0 ->
    dot_T (scatter_vec self) q0 = Ok A ->
    det A <> 0 ->
    exists F : mat3,
      deformation_gradientL2 lu self = Ok F
      /\ deformation_gradientL2 lu (rotated g self)
         = Ok (matmul (matmul g F) (transpose g)).
Proof.
  intros lu g self q0 A Hg Hq0 HA Hdet.
  pose proof (orthogonal_right g Hg) as Hg'.
  destruct (dot_T_self q0) as [B HB].
  pose proof (inv_nonsingular lu A Hdet) as HAinv.
  destruct (inv_correct _ _ _ Hdet HAinv) as [HAr HAl].
  set (Ainv := mscale (/ det A) (adjugate A)) in *.
  exists (matmul (transpose Ainv) (transpose B)). split.
  { rewrite (deformation_gradientL2_steps _ _ _ _ _ Hq0 HA HB), HAinv.
    reflexivity. }
  pose proof (scatter_vec0_rotated g self q0 Hg Hq0) as Hq0'.
  assert (HA' : dot_T (scatter_vec (rotated g self)) (matcols g q0)
                = Ok (matmul (matmul g A) (transpose g))).
  { cbn [rotated scatter_vec].
    apply dot_T_matcols_r. now apply dot_T_matcols. }
  assert (HB' : dot_T (matcols g q0) (matcols g q0)
                = Ok (matmul (matmul g B) (transpose g))).
  { apply dot_T_matcols_r. now apply dot_T_matcols. }
  rewrite (deformation_gradientL2_steps _ _ _ _ _ Hq0' HA' HB').
  assert (Hprod : matmul (matmul (matmul g A) (transpose g))
                         (matmul (matmul g Ainv) (transpose g)) = eye3).
  { rewrite (conj_matmul g A Ainv Hg), HAr, matmul_eye3_r. exact Hg'. }
  assert (Hdet' : det (matmul (matmul g A) (transpose g)) <> 0).
  { intros H0. pose proof (f_equal det Hprod) as Hdp.
    rewrite det_matmul, H0, det_eye3 in Hdp. lra. }
  pose proof (inv_nonsingular lu _ Hdet') as HZ.
  destruct (inv_correct _ _ _ Hdet' HZ) as [_ HZl].
  rewrite HZ. cbn [rbind Ok].
  rewrite (inverse_unique _ _ _ HZl Hprod).
  now rewrite !conj_transpose, (conj_matmul g _ _ Hg).
Qed.

Lemma deformation_gradientL2_rotated_witness :
  exists F : mat3,
    deformation_gradientL2 exact_pivots sheared_voxel = Ok F
    /\ deformation_gradientL2 exact_pivots (rotated R_TSL2XHF sheared_voxel)
       = Ok (matmul (matmul R_TSL2XHF F) (transpose R_TSL2XHF)).
Proof.
  apply (deformation_gradientL2_rotated exact_pivots R_TSL2XHF sheared_voxel
           [(2, 0, 0); (0, 1, 0); (0, 0, 1)] sheared_A).
  - rewrite R_TSL2XHF_value. cbv [matmul transpose dot3 eye3].
    split_pairs; ring.
  - apply sheared_q0.
  - apply sheared_A_value.
  - cbv [det sheared_A]. lra.
Defined.

(** ** Pairing before solving *)

(** X17: pairing prepares the solver's input.  After a pairing that
    returned, the closed-form solver cannot fail on shapes any more: it
    returns a matrix or raises [LinAlgError]. *)
Theorem deformation_gradientL2_after_pairing :
  forall (lu : lapack) (self self' : DAXMvoxel),
    pair_scattervec_plane self = (Ok tt, self') ->
    (exists F : mat3, deformation_gradientL2 lu self' = Ok F)
    \/ deformation_gradientL2 lu self' = Raise LinAlgError.
Proof.
  intros lu self self' Hpair. rewrite pair_scattervec_plane_unfold in Hpair.
  destruct (pair_loop _ _ _ _) as [e | new] eqn:Hloop; [discriminate |].
  injection Hpair as <-.
  destruct (pair_loop_filled _ _ _ _ Hloop (seq_NoDup _ _)) as [Hl1 _].
  cbn [fst] in Hl1. rewrite length_map in Hl1.
  set (v := mkVoxel _ _ _ _ _ _ _ _ _ _).
  assert (Hsv : length (scatter_vec v) = length (plane v)) by exact Hl1.
  unfold deformation_gradientL2, scatter_vec0.
  set (q0 := matcols (recip_base v) (plane v)).
  assert (Hq0 : length q0 = length (plane v))
    by (unfold q0, matcols; apply length_map).
  rewrite (take_cols_in_range zeros3 q0).
  - cbn [rbind Ok]. unfold dot_T.
    rewrite !put_cols_length, Hq0, Hsv, !Nat.eqb_refl. cbn [rbind Ok].
    destruct (inv lu _) as [e | Ainv] eqn:Hinv.
    + right. apply inv_raise in Hinv. now subst.
    + left. eexists. reflexivity.
  - eapply Forall_impl; [| apply (where_from_bound 0)].
    simpl. intros j Hj. rewrite length_map in Hj.
    change (j < length (scatter_vec v))%nat in Hj. lia.
Qed.

Lemma deformation_gradientL2_after_pairing_witness :
  (exists F : mat3,
      deformation_gradientL2 exact_pivots
        (mkVoxel (Some "Cloud"%string) "APS" (1, 1, 1) (Some "hidden"%string)
                 [(0, 2, 0); (1, 0, 0)] [(1, 0, 0); (0, 1, 0)] eye3
                 [(30, 40); (10, 20)] 0 [])
      = Ok F)
  \/ deformation_gradientL2 exact_pivots
       (mkVoxel (Some "Cloud"%string) "APS" (1, 1, 1) (Some "hidden"%string)
                [(0, 2, 0); (1, 0, 0)] [(1, 0, 0); (0, 1, 0)] eye3
                [(30, 40); (10, 20)] 0 [])
     = Raise LinAlgError.
Proof.
  apply (deformation_gradientL2_after_pairing exact_pivots
           (voxel_in "APS" (1, 1, 1))).
  rewrite pair_scattervec_plane_unfold.
  cbn [voxel_in plane scatter_vec map length seq repeat pair_loop].
  rewrite normalize_axis_x, (normalize_axis_y 2) by lra.
  change (pair_step _ [(1, 0, 0); (0, 1, 0)] ?acc 0)
    with (pair_step (voxel_in "APS" (1, 1, 1)) [(1, 0, 0); (0, 1, 0)] acc 0).
  rewrite pair_step_first. cbn [rbind Ok fst snd put_col].
  change (pair_step _ [(1, 0, 0); (0, 1, 0)] ?acc 1)
    with (pair_step (voxel_in "APS" (1, 1, 1)) [(1, 0, 0); (0, 1, 0)] acc 1).
  rewrite pair_step_second. reflexivity.
Defined.
